(** * dso-date-shifter: the date shifting pipeline of [main.py]

    The development embeds [shift_date] and the transformation loop of
    [process_file] together with the library operations they rest on:
    [re.findall] for the fixed date pattern, [str.replace],
    [datetime.strptime], [datetime + timedelta] and [datetime.strftime].

    The library operations follow CPython ([Lib/_strptime.py] for parsing,
    [Lib/_pydatetime.py] for the calendar), on the directives [%Y], [%m],
    [%d], [%y] and [%%] and on literal text.

    Text is modelled as a list of Latin-1 code points (type [ascii]); on
    these, the regular expression class [\d] is exactly [0-9].  Text with
    characters beyond U+00FF is outside the model, and so are the decimal
    digits of other scripts, which [\d] and [int] accept as well.  Integers
    are unbounded ([Z]), as Python's are.

    The file system and [chardet] are an environment of [process_file]:
    what opening, reading, detecting and writing answer, an exception
    included, is given to the model ([file_io]); [os.path] is that of a
    POSIX system. *)

From Stdlib Require Import ZArith Bool Ascii String List Lia.
Import ListNotations.
Open Scope Z_scope.

(** ** Text *)

Definition text := list ascii.

Definition lit (s : string) : text := list_ascii_of_string s.

Definition code (c : ascii) : Z := Z.of_N (N_of_ascii c).

(** [\d] on Latin-1 text: of the decimal digits of Unicode (category Nd),
    which [\d] matches in a [str] pattern and [int] converts, only [0-9] lie
    in Latin-1. *)
Definition is_digit (c : ascii) : bool :=
  (48 <=? code c) && (code c <=? 57).

(** [\s] on Latin-1 text: TAB LF VT FF CR, FS GS RS US, SPACE, NEL, NBSP. *)
Definition is_space (c : ascii) : bool :=
  let n := code c in
  ((9 <=? n) && (n <=? 13)) || ((28 <=? n) && (n <=? 32))
  || (n =? 133) || (n =? 160).

(** The two separators of the character class [[/-]]. *)
Definition is_sep (c : ascii) : bool :=
  (code c =? 47) || (code c =? 45).

(** Lower-casing as [re.IGNORECASE] applies it between Latin-1 characters:
    [A-Z] and the accented capitals U+00C0..U+00DE (but not the
    multiplication sign U+00D7) move up by 32. *)
Definition lower (c : ascii) : ascii :=
  let n := code c in
  if ((65 <=? n) && (n <=? 90))
     || ((192 <=? n) && (n <=? 222) && negb (n =? 215))
  then ascii_of_N (Z.to_N (n + 32)) else c.

Definition ci_eqb (a b : ascii) : bool := Ascii.eqb (lower a) (lower b).

Definition digit_char (n : Z) : ascii := ascii_of_N (Z.to_N (48 + n)).

Definition digit_val (c : ascii) : Z := code c - 48.

(** [s.startswith(p)] *)
Fixpoint starts_with (p s : text) : bool :=
  match p, s with
  | [], _ => true
  | x :: p', y :: s' => Ascii.eqb x y && starts_with p' s'
  | _ :: _, [] => false
  end.

(** ** Exceptions *)

Inductive exn : Type :=
| ValueError
| OverflowError
| ReError
| OSError
| LookupError.

Inductive result (A : Type) : Type :=
| Ok (a : A)
| Raise (e : exn).
Arguments Ok {A} a.
Arguments Raise {A} e.

Definition bind {A B : Type} (r : result A) (k : A -> result B) : result B :=
  match r with
  | Ok a => k a
  | Raise e => Raise e
  end.

Notation "x <- r ;; k" := (bind r (fun x => k))
  (at level 61, r at next level, right associativity).

(** ** The calendar of [datetime]

    A [datetime] produced by [strptime] from the directives modelled here has
    all its time fields at zero, a shift by whole days keeps them at zero and
    none of the modelled directives prints them: the object is represented by
    its date. *)

Record date : Type := mkdate { year : Z; month : Z; day : Z }.

Definition MINYEAR : Z := 1.
Definition MAXYEAR : Z := 9999.
Definition MAXORDINAL : Z := 3652059.

(** [_is_leap] *)
Definition is_leap (y : Z) : bool :=
  (y mod 4 =? 0) && (negb (y mod 100 =? 0) || (y mod 400 =? 0)).

(** [_days_before_year]: number of days before January 1st of year [y]. *)
Definition days_before_year (y : Z) : Z :=
  let y := y - 1 in
  y * 365 + y / 4 - y / 100 + y / 400.

(** [_DAYS_IN_MONTH] *)
Definition DAYS_IN_MONTH (m : Z) : Z :=
  match m with
  | 1 => 31 | 2 => 28 | 3 => 31 | 4 => 30 | 5 => 31 | 6 => 30
  | 7 => 31 | 8 => 31 | 9 => 30 | 10 => 31 | 11 => 30 | 12 => 31
  | _ => -1
  end.

(** [_DAYS_BEFORE_MONTH] *)
Definition DAYS_BEFORE_MONTH (m : Z) : Z :=
  match m with
  | 1 => 0 | 2 => 31 | 3 => 59 | 4 => 90 | 5 => 120 | 6 => 151
  | 7 => 181 | 8 => 212 | 9 => 243 | 10 => 273 | 11 => 304 | 12 => 334
  | _ => -1
  end.

(** [_days_in_month] *)
Definition days_in_month (y m : Z) : Z :=
  if (m =? 2) && is_leap y then 29 else DAYS_IN_MONTH m.

(** [_days_before_month] *)
Definition days_before_month (y m : Z) : Z :=
  DAYS_BEFORE_MONTH m + (if (2 <? m) && is_leap y then 1 else 0).

(** [_ymd2ord]: January 1st of year 1 is day 1. *)
Definition ymd2ord (y m d : Z) : Z :=
  days_before_year y + days_before_month y m + d.

Definition DI400Y : Z := 146097.
Definition DI100Y : Z := 36524.
Definition DI4Y : Z := 1461.

(** [_ord2ymd] *)
Definition ord2ymd (n : Z) : date :=
  let n := n - 1 in
  let n400 := n / DI400Y in
  let n := n mod DI400Y in
  let y := n400 * 400 + 1 in
  let n100 := n / DI100Y in
  let n := n mod DI100Y in
  let n4 := n / DI4Y in
  let n := n mod DI4Y in
  let n1 := n / 365 in
  let n := n mod 365 in
  let y := y + n100 * 100 + n4 * 4 + n1 in
  if (n1 =? 4) || (n100 =? 4) then mkdate (y - 1) 12 31
  else
    let leapyear := (n1 =? 3) && (negb (n4 =? 24) || (n100 =? 3)) in
    let m := Z.shiftr (n + 50) 5 in
    let preceding :=
      DAYS_BEFORE_MONTH m + (if (2 <? m) && leapyear then 1 else 0) in
    if n <? preceding then
      let m := m - 1 in
      let preceding :=
        preceding
        - (DAYS_IN_MONTH m + (if (m =? 2) && leapyear then 1 else 0)) in
      mkdate y m (n - preceding + 1)
    else mkdate y m (n - preceding + 1).

(** [_check_date_fields]: the test the [datetime] constructor applies. *)
Definition check_date_fields (y m d : Z) : bool :=
  (MINYEAR <=? y) && (y <=? MAXYEAR)
  && (1 <=? m) && (m <=? 12)
  && (1 <=? d) && (d <=? days_in_month y m).

Definition make_date (y m d : Z) : result date :=
  if check_date_fields y m d then Ok (mkdate y m d) else Raise ValueError.

Definition toordinal (dt : date) : Z := ymd2ord (year dt) (month dt) (day dt).

(** [timedelta(days=n)]: the constructor refuses more than 999999999 days. *)
Definition timedelta (days : Z) : result Z :=
  if Z.abs days <=? 999999999 then Ok days else Raise OverflowError.

(** [datetime.__add__] with a whole number of days. *)
Definition date_add (dt : date) (delta : Z) : result date :=
  let n := toordinal dt + delta in
  if (0 <? n) && (n <=? MAXORDINAL) then Ok (ord2ymd n)
  else Raise OverflowError.

(** *** Calendar days, one at a time

    The reference against which the ordinal arithmetic is compared: the day
    after and the day before a date, by the rules of the proleptic Gregorian
    calendar. *)

Definition leap_year (y : Z) : Prop :=
  (4 | y) /\ (~ (100 | y) \/ (400 | y)).

Definition month_length (y m : Z) : Z :=
  match m with
  | 2 => if is_leap y then 29 else 28
  | 4 | 6 | 9 | 11 => 30
  | _ => 31
  end.

Definition next_day (dt : date) : date :=
  let '(mkdate y m d) := dt in
  if d <? month_length y m then mkdate y m (d + 1)
  else if m <? 12 then mkdate y (m + 1) 1
  else mkdate (y + 1) 1 1.

Definition prev_day (dt : date) : date :=
  let '(mkdate y m d) := dt in
  if 1 <? d then mkdate y m (d - 1)
  else if 1 <? m then mkdate y (m - 1) (month_length y (m - 1))
  else mkdate (y - 1) 12 31.

Fixpoint iter_day (step : date -> date) (n : nat) (dt : date) : date :=
  match n with
  | O => dt
  | S n' => iter_day step n' (step dt)
  end.

(** The date [k] calendar days from [dt]. *)
Definition days_from (dt : date) (k : Z) : date :=
  if 0 <=? k then iter_day next_day (Z.to_nat k) dt
  else iter_day prev_day (Z.to_nat (- k)) dt.

Definition calendar_date (dt : date) : Prop :=
  1 <= month dt <= 12 /\ 1 <= day dt <= month_length (year dt) (month dt).

Definition representable (dt : date) : Prop :=
  MINYEAR <= year dt <= MAXYEAR.

(** ** Character classes and ordered alternation

    Both regular expressions of the program (the date pattern of
    [process_file] and the one [strptime] builds from a format) are ordered
    alternations of fixed sequences of character classes. *)

Definition cclass := ascii -> bool.

Definition exactly (a : ascii) : cclass := fun c => Ascii.eqb c a.

Definition in_range (lo hi : ascii) : cclass :=
  fun c => (code lo <=? code c) && (code c <=? code hi).

(** Does [s] start with one character of each class, in order? *)
Fixpoint match_classes (cs : list cclass) (s : text) : bool :=
  match cs, s with
  | [], _ => true
  | k :: cs', c :: s' => k c && match_classes cs' s'
  | _ :: _, [] => false
  end.

(** The first alternative that matches at the start of [s] wins; the result
    is the length of the match. *)
Fixpoint search (alts : list (list cclass)) (s : text) : option nat :=
  match alts with
  | [] => None
  | a :: alts' =>
      if match_classes a s then Some (length a) else search alts' s
  end.

(** ** The pattern scanner: [re.findall(date_pattern, content)]

    [\d{4}-\d{2}-\d{2}|\d{2}[/-]\d{2}[/-]\d{4}|\d{2}[/-]\d{2}[/-]\d{2}] *)

Definition date_pattern : list (list cclass) :=
  let d := is_digit in
  let dash := exactly "-" in
  let sep := is_sep in
  [ [d; d; d; d; dash; d; d; dash; d; d];
    [d; d; sep; d; d; sep; d; d; d; d];
    [d; d; sep; d; d; sep; d; d] ].

(** [findall] walks the text from left to right.  At a position where some
    alternative matches, the matched text is produced and the scan resumes
    after it ([skip] counts the characters of the match still to pass);
    elsewhere the scan moves on by one character.  Every alternative of the
    pattern is non-empty. *)
Fixpoint findall_from (pat : list (list cclass)) (skip : nat) (s : text)
  : list text :=
  match s with
  | [] => []
  | _ :: s' =>
      match skip with
      | S k => findall_from pat k s'
      | O =>
          match search pat s with
          | Some n => firstn n s :: findall_from pat (n - 1) s'
          | None => findall_from pat 0 s'
          end
      end
  end.

Definition findall (pat : list (list cclass)) (s : text) : list text :=
  findall_from pat 0 s.

(** ** [str.replace(old, new)]

    Occurrences of [old] are found from left to right and do not overlap.
    An empty [old] matches before every character and at the end. *)
Fixpoint replace_from (old new : text) (skip : nat) (s : text) : text :=
  match s with
  | [] => []
  | c :: s' =>
      match skip with
      | S k => replace_from old new k s'
      | O =>
          if starts_with old s
          then new ++ replace_from old new (length old - 1) s'
          else c :: replace_from old new 0 s'
      end
  end.

Definition replace (s old new : text) : text :=
  match old with
  | [] => new ++ flat_map (fun c => c :: new) s
  | _ :: _ => replace_from old new 0 s
  end.

(** ** Date formats

    A format string is represented by its tokens.  The directives modelled
    are [%Y], [%m], [%d] and [%y]; [Lit c] is the literal character [c],
    written [%%] in the format string when [c] is the percent sign. *)

Inductive directive : Type := DY | Dm | Dd | Dy.

Inductive fmt_item : Type :=
| Lit (c : ascii)
| Dir (d : directive).

Definition format := list fmt_item.

Definition directive_eqb (a b : directive) : bool :=
  match a, b with
  | DY, DY | Dm, Dm | Dd, Dd | Dy, Dy => true
  | _, _ => false
  end.

Definition directive_of (c : ascii) : option fmt_item :=
  if Ascii.eqb c "Y" then Some (Dir DY)
  else if Ascii.eqb c "m" then Some (Dir Dm)
  else if Ascii.eqb c "d" then Some (Dir Dd)
  else if Ascii.eqb c "y" then Some (Dir Dy)
  else if Ascii.eqb c "%" then Some (Lit "%")
  else None.

(** Tokens of a format string; [None] for a string that uses something
    outside the directives above. *)
Fixpoint parse_format (s : text) : option format :=
  match s with
  | [] => Some []
  | c :: s' =>
      if Ascii.eqb c "%" then
        match s' with
        | [] => None
        | k :: s'' =>
            match directive_of k, parse_format s'' with
            | Some it, Some f => Some (it :: f)
            | _, _ => None
            end
        end
      else
        match parse_format s' with
        | Some f => Some (Lit c :: f)
        | None => None
        end
  end.

(** The default of [--date_format]: [%Y-%m-%d]. *)
Definition default_format : format :=
  [Dir DY; Lit "-"; Dir Dm; Lit "-"; Dir Dd].

(** ** [datetime.strptime]

    [_strptime] turns the format into a regular expression: a run of
    whitespace becomes [\s+], a directive becomes a named group and every
    other character stands for itself; the expression is compiled with
    [re.IGNORECASE]. *)

Inductive re_item : Type :=
| RChar (c : ascii)
| RSpaces
| RGroup (d : directive).

Fixpoint pattern (f : format) : list re_item :=
  match f with
  | [] => []
  | Lit c :: f' =>
      if is_space c then
        match pattern f' with
        | RSpaces :: p => RSpaces :: p
        | p => RSpaces :: p
        end
      else RChar c :: pattern f'
  | Dir d :: f' => RGroup d :: pattern f'
  end.

Fixpoint directives (f : format) : list directive :=
  match f with
  | [] => []
  | Lit _ :: f' => directives f'
  | Dir d :: f' => d :: directives f'
  end.

Fixpoint has_repeat (ds : list directive) : bool :=
  match ds with
  | [] => false
  | d :: ds' => existsb (directive_eqb d) ds' || has_repeat ds'
  end.

(** [re.compile] refuses a group name defined twice, with [re.error], an
    [Exception] that is not a [ValueError]; [_strptime] lets it through. *)
Definition compile (f : format) : result (list re_item) :=
  if has_repeat (directives f) then Raise ReError else Ok (pattern f).

(** The groups of [TimeRE]:
    [%Y] is [\d\d\d\d], [%y] is [\d\d],
    [%m] is [1[0-2]|0[1-9]|[1-9]] and
    [%d] is [3[0-1]|[1-2]\d|0[1-9]|[1-9]| [1-9]]. *)
Definition group_alternatives (d : directive) : list (list cclass) :=
  match d with
  | DY => [[is_digit; is_digit; is_digit; is_digit]]
  | Dy => [[is_digit; is_digit]]
  | Dm => [[exactly "1"; in_range "0" "2"]; [exactly "0"; in_range "1" "9"];
           [in_range "1" "9"]]
  | Dd => [[exactly "3"; in_range "0" "1"]; [in_range "1" "2"; is_digit];
           [exactly "0"; in_range "1" "9"]; [in_range "1" "9"];
           [exactly " "; in_range "1" "9"]]
  end.

Fixpoint count_spaces (s : text) : nat :=
  match s with
  | c :: s' => if is_space c then S (count_spaces s') else O
  | [] => O
  end.

(** [n; n-1; ...; 1] *)
Fixpoint down_from (n : nat) : list nat :=
  match n with
  | O => []
  | S k => n :: down_from k
  end.

(** The lengths an item may consume at the start of [s], in the order in
    which the backtracking matcher tries them. *)
Definition choices (it : re_item) (s : text) : list nat :=
  match it with
  | RChar c =>
      match s with
      | x :: _ => if ci_eqb c x then [1%nat] else []
      | [] => []
      end
  | RSpaces => down_from (count_spaces s)
  | RGroup d =>
      map (@length cclass)
          (filter (fun a => match_classes a s) (group_alternatives d))
  end.

Fixpoint first_some {A B : Type} (f : A -> option B) (l : list A)
  : option B :=
  match l with
  | [] => None
  | a :: l' =>
      match f a with
      | Some b => Some b
      | None => first_some f l'
      end
  end.

(** [re.match]: the first way, in the matcher's order, to match all items
    at the start of [s]; it gives the text of each group and what is left
    of [s]. *)
Fixpoint re_match (items : list re_item) (s : text)
  : option (list (directive * text) * text) :=
  match items with
  | [] => Some ([], s)
  | it :: items' =>
      first_some
        (fun n =>
           match re_match items' (skipn n s) with
           | Some (groups, rest) =>
               Some (match it with
                     | RGroup d => (d, firstn n s) :: groups
                     | _ => groups
                     end, rest)
           | None => None
           end)
        (choices it s)
  end.

(** [int] of a group's text (the space a [%d] group may start with is
    ignored). *)
Definition int_of_text (s : text) : Z :=
  fold_left (fun acc c => if is_digit c then 10 * acc + digit_val c else acc)
            s 0.

(** One step of the loop over the groups found, on (year, month, day). *)
Definition set_field (ymd : Z * Z * Z) (g : directive * text) : Z * Z * Z :=
  let '(y, m, d) := ymd in
  let v := int_of_text (snd g) in
  match fst g with
  | Dy => (if v <=? 68 then v + 2000 else v + 1900, m, d)
  | DY => (v, m, d)
  | Dm => (y, v, d)
  | Dd => (y, m, v)
  end.

(** The expression is matched at the start of [data_string] and has to
    take all of it; the year defaults to 1900, month and day to 1; the
    groups are read in the order of the format (of [%y] and [%Y] the later
    one decides the year); the values found have to form a date.  Every
    failure but that of [compile] is a [ValueError]. *)
Definition strptime (data_string : text) (f : format) : result date :=
  items <- compile f ;;
  match re_match items data_string with
  | None => Raise ValueError
  | Some (_, _ :: _) => Raise ValueError
  | Some (groups, []) =>
      let '(y, m, d) := fold_left set_field groups (1900, 1, 1) in
      make_date y m d
  end.

(** ** [datetime.strftime]

    [%m], [%d] and [%y] are written with two digits, [%Y] with four (see
    [zero_pad_year] below for years before 1000), literal text as it is.
    A format given on the command line has no NUL character; what
    [strftime] does with one is not modelled. *)

Definition pad2 (n : Z) : text :=
  [digit_char (n / 10 mod 10); digit_char (n mod 10)].

Definition pad4 (n : Z) : text :=
  [digit_char (n / 1000 mod 10); digit_char (n / 100 mod 10);
   digit_char (n / 10 mod 10); digit_char (n mod 10)].

Fixpoint strip_zeros (s : text) : text :=
  match s with
  | c :: (_ :: _) as s' => if Ascii.eqb c "0" then strip_zeros s' else s
  | _ => s
  end.

(** ** Paths

    [os.path] on a POSIX system ([posixpath]). *)

(** [os.path.basename(p)]: what follows the last [/] of [p], that is
    [p[p.rfind('/') + 1:]]. *)
Definition basename (p : text) : text :=
  fold_left (fun acc c => if Ascii.eqb c "/" then [] else acc ++ [c]) p [].

(** [os.path.join(a, b)] *)
Definition path_join (a b : text) : text :=
  if starts_with (lit "/") b then b
  else
    match a with
    | [] => a ++ b
    | _ :: _ =>
        if Ascii.eqb (last a " "%char) "/" then a ++ b
        else a ++ "/"%char :: b
    end.

(** The path [process_file] writes to.  [if output_path:] holds for a
    string that is not empty; [None] and the empty string make the file
    overwrite itself. *)
Definition output_file_path (output_path : option text) (file_path : text)
  : text :=
  match output_path with
  | Some ((_ :: _) as dir) => path_join dir (basename file_path)
  | _ => file_path
  end.

(** ** Reading and writing a file

    [open(path, 'r', encoding=...)] reads with universal newlines: the
    line ends [\r\n] and [\r] of the decoded text become [\n]. *)
Fixpoint universal_newlines (s : text) : text :=
  match s with
  | [] => []
  | c :: s' =>
      if Ascii.eqb c "013" then
        "010"%char
          :: match s' with
             | d :: s'' =>
                 if Ascii.eqb d "010" then universal_newlines s''
                 else universal_newlines s'
             | [] => []
             end
      else c :: universal_newlines s'
  end.

(** What the file system and [chardet] answer during one call of
    [process_file], each answer a value or the exception raised:
    - [io_detect path]: [open(path, 'rb')], [f.read()] and
      [chardet.detect(rawdata)['encoding']], [None] when no encoding is
      detected;
    - [io_read path encoding]: [open(path, 'r', encoding=encoding)] and the
      characters the codec decodes from the file (a decoding error is a
      [ValueError], an unknown codec a [LookupError]), before the
      translation of line ends;
    - [io_write path encoding s]: [open(path, 'w', encoding=encoding)],
      [f.write(s)] and the closing of the file.  On a POSIX system the line
      ends of [s] are written as they are ([os.linesep] is [\n]).  When it
      raises, what is left at [path] is not modelled (the file may have
      been created or emptied by [open]). *)
Record file_io : Type := mkio {
  io_detect : text -> result (option text);
  io_read : text -> text -> result text;
  io_write : text -> text -> text -> result unit
}.

(** ** Logging

    What [logging.warning], [logging.error] and [logging.info] are called
    with. *)

Inductive log_record : Type :=
| Warning_unparsable (date_str : text) (e : exn)
| Error_no_encoding
| Error_processing (e : exn)
| Info_processed.

Section Platform.

(** Whether the platform's [strftime] fills [%Y] with zeros up to four
    digits for years before 1000 (the C library of Linux does not). *)
Variable zero_pad_year : bool.

Definition render_directive (d : directive) (dt : date) : text :=
  match d with
  | DY => if zero_pad_year then pad4 (year dt)
          else strip_zeros (pad4 (year dt))
  | Dy => pad2 (year dt mod 100)
  | Dm => pad2 (month dt)
  | Dd => pad2 (day dt)
  end.

Fixpoint strftime (dt : date) (f : format) : text :=
  match f with
  | [] => []
  | Lit c :: f' => c :: strftime dt f'
  | Dir d :: f' => render_directive d dt ++ strftime dt f'
  end.

(** ** [shift_date]

    The body of the [try]: parse, add the days, render. *)
Definition shift_date_try (date_str : text) (shift_days : Z)
           (date_format : format) : result text :=
  date_obj <- strptime date_str date_format ;;
  delta <- timedelta shift_days ;;
  shifted_date <- date_add date_obj delta ;;
  Ok (strftime shifted_date date_format).

(** [except ValueError] logs a warning and returns [date_str]; any other
    exception leaves the function.  The result comes with the records
    logged. *)
Definition shift_date (date_str : text) (shift_days : Z)
           (date_format : format) : list log_record * result text :=
  match shift_date_try date_str shift_days date_format with
  | Raise ValueError =>
      ([Warning_unparsable date_str ValueError], Ok date_str)
  | r => ([], r)
  end.

(** ** [process_file]

    The loop [for date_str in dates], on the variable [shifted_content]. *)
Fixpoint shift_loop (dates : list text) (shift_days : Z)
         (date_format : format) (shifted_content : text)
  : list log_record * result text :=
  match dates with
  | [] => ([], Ok shifted_content)
  | date_str :: dates' =>
      match shift_date date_str shift_days date_format with
      | (w, Raise e) => (w, Raise e)
      | (w, Ok shifted_date) =>
          let '(w', r) :=
            shift_loop dates' shift_days date_format
                       (replace shifted_content date_str shifted_date) in
          (w ++ w', r)
      end
  end.

(** From the decoded [content] to [shifted_content]. *)
Definition transform (content : text) (shift_days : Z)
           (date_format : format) : list log_record * result text :=
  shift_loop (findall date_pattern content) shift_days date_format content.

(** [process_file], given the answers [io] of the file system.  The result
    is what is logged and, when the write is made and succeeds, the path
    written and the text written to it.  Every exception raised on the way
    ends in the handler [except Exception], which logs it: nothing is
    written then, or the write itself has failed. *)
Definition process_file (file_path : text) (shift_days : Z)
           (output_path : option text) (date_format : format) (io : file_io)
  : list log_record * option (text * text) :=
  match io_detect io file_path with
  | Raise e => ([Error_processing e], None)
  | Ok None => ([Error_no_encoding], None)
  | Ok (Some encoding) =>
      match io_read io file_path encoding with
      | Raise e => ([Error_processing e], None)
      | Ok decoded =>
          let content := universal_newlines decoded in
          match transform content shift_days date_format with
          | (w, Raise e) => (w ++ [Error_processing e], None)
          | (w, Ok shifted_content) =>
              let path := output_file_path output_path file_path in
              match io_write io path encoding shifted_content with
              | Raise e => (w ++ [Error_processing e], None)
              | Ok _ =>
                  (w ++ [Info_processed], Some (path, shifted_content))
              end
          end
      end
  end.

End Platform.

(** ** Dates a format can express *)

Definition uses (d : directive) (f : format) : bool :=
  existsb (directive_eqb d) (directives f).


(** Rendering [dt] with [f] and parsing the text back with [f] gives
    [dt]. *)
Definition reads_back (zero_pad_year : bool) (dt : date) (f : format)
  : Prop :=
  strptime (strftime zero_pad_year dt f) f = Ok dt.

(** A format in which [%Y], [%m] and [%d] occur once each and [%y] does
    not occur (and so no directive twice). *)
Definition full_format (f : format) : bool :=
  negb (has_repeat (directives f))
  && uses DY f && uses Dm f && uses Dd f && negb (uses Dy f).

(** ** The transformer as the spec words it

    A fold over the candidates in scan order: each step shifts the candidate
    and replaces it everywhere in the current text. *)

Definition fold_step (zero_pad_year : bool) (shift_days : Z)
           (date_format : format) (acc : list log_record * result text)
           (candidate : text) : list log_record * result text :=
  match acc with
  | (w, Raise e) => (w, Raise e)
  | (w, Ok current) =>
      match shift_date zero_pad_year candidate shift_days date_format with
      | (w', Ok shifted) => (w ++ w', Ok (replace current candidate shifted))
      | (w', Raise e) => (w ++ w', Raise e)
      end
  end.

Definition transform_fold (zero_pad_year : bool) (content : text)
           (shift_days : Z) (date_format : format)
  : list log_record * result text :=
  fold_left (fold_step zero_pad_year shift_days date_format)
            (findall date_pattern content) ([], Ok content).

(** [old in s] *)
Fixpoint occurs (old s : text) : bool :=
  starts_with old s
  || match s with
     | [] => false
     | _ :: s' => occurs old s'
     end.

(** [s'] is [s] with every occurrence of [old] replaced by [new], the
    occurrences being taken from the left: either [old] does not occur, or
    [s] is cut at its leftmost occurrence and the rest is treated likewise. *)
Inductive replaced_all (old new : text) : text -> text -> Prop :=
| replaced_none s :
    occurs old s = false -> replaced_all old new s s
| replaced_first p rest rest' :
    occurs old (p ++ removelast old) = false ->
    replaced_all old new rest rest' ->
    replaced_all old new (p ++ old ++ rest) (p ++ new ++ rest').

(** ** The text between the candidates

    [gaps pat s] are the regions of [s] that are not part of a match found
    by [findall pat s], from left to right: one before the first match, one
    between two matches that follow each other, one after the last match
    (a region is empty where two matches touch). *)
Fixpoint gaps_from (pat : list (list cclass)) (skip : nat) (s : text)
  : list text :=
  match s with
  | [] => [[]]
  | c :: s' =>
      match skip with
      | S k => gaps_from pat k s'
      | O =>
          match search pat s with
          | Some n => [] :: gaps_from pat (n - 1) s'
          | None =>
              match gaps_from pat 0 s' with
              | g :: gs => (c :: g) :: gs
              | [] => [[c]]
              end
          end
      end
  end.

Definition gaps (pat : list (list cclass)) (s : text) : list text :=
  gaps_from pat 0 s.

(** The text made of regions and candidates in turn. *)
Fixpoint weave (regions candidates : list text) : text :=
  match regions, candidates with
  | g :: regions', c :: candidates' => g ++ c ++ weave regions' candidates'
  | g :: _, [] => g
  | [], _ => []
  end.

(** The characters a candidate is made of. *)
Definition date_char (c : ascii) : bool := is_digit c || is_sep c.

(** ** Devices of the proofs

    The last part of [_ord2ymd], which finds month and day from the number
    of days [n] since January 1st, and the table it is checked against. *)

Definition month_day (y : Z) (leapyear : bool) (n : Z) : date :=
  let m := Z.shiftr (n + 50) 5 in
  let preceding :=
    DAYS_BEFORE_MONTH m + (if (2 <? m) && leapyear then 1 else 0) in
  if n <? preceding then
    let m := m - 1 in
    let preceding :=
      preceding
      - (DAYS_IN_MONTH m + (if (m =? 2) && leapyear then 1 else 0)) in
    mkdate y m (n - preceding + 1)
  else mkdate y m (n - preceding + 1).

Definition date_eqb (a b : date) : bool :=
  (year a =? year b) && (month a =? month b) && (day a =? day b).

Definition month_day_check (leap : bool) (m d : Z) : bool :=
  date_eqb
    (month_day 0 leap
       (DAYS_BEFORE_MONTH m + (if (2 <? m) && leap then 1 else 0) + d - 1))
    (mkdate 0 m d).

Definition months : list Z := [1; 2; 3; 4; 5; 6; 7; 8; 9; 10; 11; 12].

Definition month_days (leap : bool) (m : Z) : list Z :=
  map Z.of_nat
      (seq 1 (Z.to_nat (if (m =? 2) && leap then 29 else DAYS_IN_MONTH m))).

(** The groups [strptime] finds in the rendering of [dt]. *)
Fixpoint rendered_groups (zero_pad_year : bool) (dt : date) (f : format)
  : list (directive * text) :=
  match f with
  | [] => []
  | Lit _ :: f' => rendered_groups zero_pad_year dt f'
  | Dir d :: f' =>
      (d, render_directive zero_pad_year d dt)
        :: rendered_groups zero_pad_year dt f'
  end.

Definition starts_with_space (f : format) : bool :=
  match f with
  | Lit c :: _ => is_space c
  | _ => false
  end.

(** ** [process_directory] and [main]

    A call of [process_file]: its arguments. *)
Record call : Type := mkcall {
  call_path : text;
  call_shift : Z;
  call_output : option text;
  call_format : format
}.

Fixpoint text_eqb (a b : text) : bool :=
  match a, b with
  | [], [] => true
  | x :: a', y :: b' => Ascii.eqb x y && text_eqb a' b'
  | _, _ => false
  end.

(** The loops of [process_directory] over what [os.walk(input_path)]
    yields in the run, each entry with its [root] and its [files]: the
    calls of [process_file] they make, in order.  Without [recursive] the
    outer loop ends after its first round.  Creating the output directory
    is left out. *)
Fixpoint process_directory (walked : list (text * list text))
         (input_path : text) (shift_days : Z) (output_path : option text)
         (recursive : bool) (date_format : format) : list call :=
  match walked with
  | [] => []
  | (root, files) :: walked' =>
      flat_map
        (fun file =>
           let file_path := path_join root file in
           if negb recursive && negb (text_eqb root input_path) then []
           else [mkcall file_path shift_days output_path date_format])
        files
      ++ (if negb recursive then []
          else process_directory walked' input_path shift_days output_path
                                 recursive date_format)
  end.

(** The arguments [setup_argparse] returns. *)
Record args : Type := mkargs {
  arg_input_path : text;
  arg_shift_days : option Z;
  arg_output_path : option text;
  arg_recursive : bool;
  arg_date_format : format
}.

(** [main], given what the file system answers about [input_path]
    ([os.path.exists], [isfile], [isdir], [os.walk]) and the number
    [random.randint(-365, 365)] would return: the calls of [process_file]
    made in the run. *)
Definition main (a : args) (exists_ isfile isdir : bool) (drawn : Z)
           (walked : list (text * list text)) : list call :=
  if negb exists_ then []
  else
    let shift_days :=
      match arg_shift_days a with
      | None => drawn
      | Some n => n
      end in
    if isfile then
      [mkcall (arg_input_path a) shift_days (arg_output_path a)
              (arg_date_format a)]
    else if isdir then
      process_directory walked (arg_input_path a) shift_days
                        (arg_output_path a) (arg_recursive a)
                        (arg_date_format a)
    else [].

(** ** What a match is made of

    The piece of text an item of the expression may take: one character
    equal to the literal but for its case, one or more spaces, or a text
    that one alternative of the group matches from end to end. *)
Definition piece_ok (it : re_item) (p : text) : Prop :=
  match it with
  | RChar c => exists x, p = [x] /\ ci_eqb c x = true
  | RSpaces => p <> [] /\ forallb is_space p = true
  | RGroup d =>
      exists alt, In alt (group_alternatives d)
                  /\ match_classes alt p = true /\ length p = length alt
  end.

(** The groups among the pieces. *)
Fixpoint groups_of (items : list re_item) (pieces : list text)
  : list (directive * text) :=
  match items, pieces with
  | RGroup d :: items', p :: pieces' => (d, p) :: groups_of items' pieces'
  | _ :: items', _ :: pieces' => groups_of items' pieces'
  | _, _ => []
  end.

(** ** Calendar arithmetic *)

Lemma is_leap_spec y : is_leap y = true <-> leap_year y.
Proof.
  unfold is_leap, leap_year.
  rewrite andb_true_iff, orb_true_iff, negb_true_iff, !Z.eqb_eq, Z.eqb_neq.
  rewrite <- !Z.mod_divide by lia. tauto.
Qed.

Lemma days_in_month_length y m :
  1 <= m <= 12 -> days_in_month y m = month_length y m.
Proof.
  intros Hm. unfold days_in_month, month_length.
  assert (m = 1 \/ m = 2 \/ m = 3 \/ m = 4 \/ m = 5 \/ m = 6 \/ m = 7
          \/ m = 8 \/ m = 9 \/ m = 10 \/ m = 11 \/ m = 12) as Hc by lia.
  destruct (is_leap y);
    repeat (destruct Hc as [-> | Hc]; [reflexivity |]); subst; reflexivity.
Qed.

Lemma days_before_year_succ y :
  days_before_year (y + 1)
  = days_before_year y + 365 + (if is_leap y then 1 else 0).
Proof.
  unfold days_before_year, is_leap.
  replace (y + 1 - 1) with y by lia.
  destruct (y mod 4 =? 0) eqn:E4; destruct (y mod 100 =? 0) eqn:E100;
    destruct (y mod 400 =? 0) eqn:E400; simpl;
    rewrite ?Z.eqb_eq, ?Z.eqb_neq in *;
    Z.div_mod_to_equations; lia.
Qed.

Lemma date_eqb_eq a b : date_eqb a b = true -> a = b.
Proof.
  destruct a, b; unfold date_eqb; simpl.
  rewrite !andb_true_iff, !Z.eqb_eq. intros [[-> ->] ->]. reflexivity.
Qed.

Lemma month_day_table :
  forallb (fun leap =>
    forallb (fun m => forallb (month_day_check leap m) (month_days leap m))
            months) [true; false] = true.
Proof. vm_compute. reflexivity. Qed.

Lemma in_months m : 1 <= m <= 12 -> In m months.
Proof.
  intros H. unfold months.
  assert (m = 1 \/ m = 2 \/ m = 3 \/ m = 4 \/ m = 5 \/ m = 6 \/ m = 7
          \/ m = 8 \/ m = 9 \/ m = 10 \/ m = 11 \/ m = 12) as Hc by lia.
  simpl. intuition lia.
Qed.

Lemma in_month_days leap m d :
  1 <= d <= (if (m =? 2) && leap then 29 else DAYS_IN_MONTH m) ->
  In d (month_days leap m).
Proof.
  intros H. unfold month_days.
  apply in_map_iff. exists (Z.to_nat d). split; [lia |].
  apply in_seq. lia.
Qed.

Lemma month_day_year y leap n :
  month_day y leap n
  = mkdate y (month (month_day 0 leap n)) (day (month_day 0 leap n)).
Proof.
  unfold month_day. cbv zeta.
  destruct (_ <? _); reflexivity.
Qed.

Lemma month_day_correct y leap m d :
  1 <= m <= 12 ->
  1 <= d <= (if (m =? 2) && leap then 29 else DAYS_IN_MONTH m) ->
  month_day y leap
    (DAYS_BEFORE_MONTH m + (if (2 <? m) && leap then 1 else 0) + d - 1)
  = mkdate y m d.
Proof.
  intros Hm Hd.
  pose proof month_day_table as T.
  assert (In leap [true; false]) as Hl by (destruct leap; simpl; auto).
  rewrite forallb_forall in T. specialize (T leap Hl).
  rewrite forallb_forall in T. specialize (T m (in_months m Hm)).
  rewrite forallb_forall in T. specialize (T d (in_month_days leap m d Hd)).
  apply date_eqb_eq in T.
  rewrite month_day_year, T. reflexivity.
Qed.

Lemma ord2ymd_unfold n :
  ord2ymd n =
  let n := n - 1 in
  let n400 := n / DI400Y in
  let n := n mod DI400Y in
  let n100 := n / DI100Y in
  let n := n mod DI100Y in
  let n4 := n / DI4Y in
  let n := n mod DI4Y in
  let n1 := n / 365 in
  let n := n mod 365 in
  let y := n400 * 400 + 1 + n100 * 100 + n4 * 4 + n1 in
  if (n1 =? 4) || (n100 =? 4) then mkdate (y - 1) 12 31
  else month_day y ((n1 =? 3) && (negb (n4 =? 24) || (n100 =? 3))) n.
Proof. reflexivity. Qed.

Lemma days_before_year_digits y :
  let a := y - 1 in
  days_before_year y
  = DI400Y * (a / 400) + DI100Y * (a mod 400 / 100)
    + DI4Y * (a mod 100 / 4) + 365 * (a mod 4).
Proof.
  unfold days_before_year, DI400Y, DI100Y, DI4Y. cbv zeta.
  Z.div_mod_to_equations. lia.
Qed.

Lemma is_leap_digits y :
  let a := y - 1 in
  is_leap y
  = (a mod 4 =? 3) && (negb (a mod 100 / 4 =? 24) || (a mod 400 / 100 =? 3)).
Proof.
  unfold is_leap. cbv zeta.
  destruct (y mod 4 =? 0) eqn:E4; destruct (y mod 100 =? 0) eqn:E100;
    destruct (y mod 400 =? 0) eqn:E400;
    destruct ((y - 1) mod 4 =? 3) eqn:F4;
    destruct ((y - 1) mod 100 / 4 =? 24) eqn:F100;
    destruct ((y - 1) mod 400 / 100 =? 3) eqn:F400; simpl; try reflexivity;
    exfalso; rewrite ?Z.eqb_eq, ?Z.eqb_neq in *;
    Z.div_mod_to_equations; lia.
Qed.

Lemma div_mod_digit b q r n :
  0 <= r < b -> n = b * q + r -> n / b = q /\ n mod b = r.
Proof.
  intros Hr ->. split.
  - symmetry. apply (Z.div_unique _ _ q r); [left; lia | reflexivity].
  - symmetry. apply (Z.mod_unique _ _ q r); [left; lia | reflexivity].
Qed.

Ltac digit b q r :=
  match goal with
  | |- context [?n / b] =>
      let H := fresh "H" in
      destruct (div_mod_digit b q r n) as [H H0];
      [lia | lia | rewrite ?H, ?H0; clear H H0]
  end.

Lemma ord2ymd_digits A B C D doy leap :
  0 <= B <= 3 -> 0 <= C <= 24 -> 0 <= D <= 3 ->
  leap = (D =? 3) && (negb (C =? 24) || (B =? 3)) ->
  0 <= doy < 365 + (if leap then 1 else 0) ->
  ord2ymd (DI400Y * A + DI100Y * B + DI4Y * C + 365 * D + doy + 1)
  = if leap && (doy =? 365)
    then mkdate (400 * A + 100 * B + 4 * C + D + 1) 12 31
    else month_day (400 * A + 100 * B + 4 * C + D + 1) leap doy.
Proof.
  intros HB HC HD El Hdoy.
  rewrite ord2ymd_unfold. cbv zeta.
  unfold DI400Y, DI100Y, DI4Y in *.
  destruct leap; cbn [andb] in *.
  - assert (D = 3 /\ (C <> 24 \/ B = 3)) as [-> HCB].
    { symmetry in El. revert El.
      rewrite andb_true_iff, orb_true_iff, negb_true_iff, !Z.eqb_eq, Z.eqb_neq.
      tauto. }
    destruct (Z.eq_dec doy 365) as [-> | Hd].
    + change (365 =? 365) with true. cbv iota.
      destruct (Z.eq_dec C 24) as [-> | HC24].
      * assert (B = 3) as -> by lia.
        digit 146097 A 146096. digit 36524 4 0.
        digit 1461 0 0. digit 365 0 0.
        rewrite Z.eqb_refl, orb_true_r. f_equal. lia.
      * digit 146097 A (36524 * B + 1461 * C + 1460).
        digit 36524 B (1461 * C + 1460). digit 1461 C 1460.
        digit 365 4 0. rewrite Z.eqb_refl. cbn [orb]. f_equal. lia.
    + replace (doy =? 365) with false by (symmetry; apply Z.eqb_neq; exact Hd).
      digit 146097 A (36524 * B + 1461 * C + 365 * 3 + doy).
      digit 36524 B (1461 * C + 365 * 3 + doy).
      digit 1461 C (365 * 3 + doy). digit 365 3 doy.
      replace (B =? 4) with false by (symmetry; apply Z.eqb_neq; lia).
      change (3 =? 4) with false. cbn [orb]. rewrite <- El. f_equal. lia.
  - digit 146097 A (36524 * B + 1461 * C + 365 * D + doy).
    digit 36524 B (1461 * C + 365 * D + doy).
    digit 1461 C (365 * D + doy). digit 365 D doy.
    replace (B =? 4) with false by (symmetry; apply Z.eqb_neq; lia).
    replace (D =? 4) with false by (symmetry; apply Z.eqb_neq; lia).
    cbn [orb]. rewrite <- El. f_equal. lia.
Qed.

Lemma month_cases m :
  1 <= m <= 12 ->
  m = 1 \/ m = 2 \/ m = 3 \/ m = 4 \/ m = 5 \/ m = 6 \/ m = 7
  \/ m = 8 \/ m = 9 \/ m = 10 \/ m = 11 \/ m = 12.
Proof. lia. Qed.

Ltac consts :=
  repeat match goal with
         | |- context [Z.pos ?a + Z.pos ?b] =>
             let v := eval compute in (Z.pos a + Z.pos b) in
             change (Z.pos a + Z.pos b) with v
         | |- context [Z.pos ?a - Z.pos ?b] =>
             let v := eval compute in (Z.pos a - Z.pos b) in
             change (Z.pos a - Z.pos b) with v
         end.

Ltac tables :=
  consts;
  cbv [DAYS_BEFORE_MONTH DAYS_IN_MONTH month_length days_before_month
       Z.ltb Z.eqb Z.compare Pos.compare Pos.compare_cont Pos.eqb andb] in *.

Ltac each_month Hm :=
  apply month_cases in Hm;
  repeat (destruct Hm as [-> | Hm]); [.. | subst].

Lemma ord2ymd_ymd2ord y m d :
  1 <= m <= 12 -> 1 <= d <= month_length y m ->
  ord2ymd (ymd2ord y m d) = mkdate y m d.
Proof.
  intros Hm Hd. unfold ymd2ord, days_before_month.
  rewrite <- days_in_month_length in Hd by assumption.
  unfold days_in_month in Hd.
  rewrite days_before_year_digits. cbv zeta.
  set (a := y - 1).
  assert (Hyear : 400 * (a / 400) + 100 * (a mod 400 / 100)
                  + 4 * (a mod 100 / 4) + a mod 4 + 1 = y).
  { subst a. Z.div_mod_to_equations. lia. }
  pose proof (is_leap_digits y) as El. cbv zeta in El. fold a in El.
  assert (HB : 0 <= a mod 400 / 100 <= 3) by (Z.div_mod_to_equations; lia).
  assert (HC : 0 <= a mod 100 / 4 <= 24) by (Z.div_mod_to_equations; lia).
  assert (HD : 0 <= a mod 4 <= 3) by (Z.div_mod_to_equations; lia).
  revert Hyear El HB HC HD.
  generalize (a / 400) (a mod 400 / 100) (a mod 100 / 4) (a mod 4).
  intros A B C D Hyear El HB HC HD. clearbody a.
  revert El Hd. generalize (is_leap y). intros leap El Hd.
  assert (Hdoy : 0 <= DAYS_BEFORE_MONTH m
                      + (if (2 <? m) && leap then 1 else 0) + d - 1
                 < 365 + (if leap then 1 else 0)).
  { destruct leap; each_month Hm; tables; lia. }
  replace (_ + _ + d) with
    (DI400Y * A + DI100Y * B + DI4Y * C + 365 * D
     + (DAYS_BEFORE_MONTH m + (if (2 <? m) && leap then 1 else 0) + d - 1) + 1)
    by lia.
  rewrite (ord2ymd_digits _ _ _ _ _ leap) by assumption.
  rewrite Hyear.
  destruct (leap && _) eqn:Elast.
  - apply andb_true_iff in Elast. destruct Elast as [-> Ed].
    apply Z.eqb_eq in Ed. clear - Hm Hd Ed.
    each_month Hm; tables; try lia. f_equal. lia.
  - apply month_day_correct; assumption.
Qed.

Lemma calendar_date_next dt : calendar_date dt -> calendar_date (next_day dt).
Proof.
  destruct dt as [y m d]. unfold calendar_date, next_day. cbn [year month day].
  intros [Hm Hd].
  destruct (d <? month_length y m) eqn:E1.
  - cbn [year month day]. lia.
  - destruct (m <? 12) eqn:E2; cbn [year month day].
    + split; [lia |]. clear - Hm E2. apply Z.ltb_lt in E2.
      assert (1 <= m + 1 <= 12) as H by lia.
      generalize dependent (m + 1). intros k Hk.
      destruct (is_leap y) eqn:L; each_month Hk; tables; rewrite ?L; lia.
    + tables. lia.
Qed.

Lemma calendar_date_prev dt : calendar_date dt -> calendar_date (prev_day dt).
Proof.
  destruct dt as [y m d]. unfold calendar_date, prev_day. cbn [year month day].
  intros [Hm Hd].
  destruct (1 <? d) eqn:E1.
  - cbn [year month day]. lia.
  - destruct (1 <? m) eqn:E2; cbn [year month day].
    + split; [lia |]. apply Z.ltb_lt in E2.
      assert (1 <= m - 1 <= 12) as Hk by lia.
      clear - Hk. generalize dependent (m - 1). intros k Hk.
      destruct (is_leap y) eqn:L; each_month Hk; tables; rewrite ?L; lia.
    + tables. lia.
Qed.

Lemma toordinal_next dt :
  calendar_date dt -> toordinal (next_day dt) = toordinal dt + 1.
Proof.
  destruct dt as [y m d]. unfold calendar_date, next_day, toordinal, ymd2ord.
  cbn [year month day]. intros [Hm Hd].
  destruct (d <? month_length y m) eqn:E1; cbn [year month day]; [lia |].
  apply Z.ltb_ge in E1. assert (d = month_length y m) as -> by lia.
  destruct (m <? 12) eqn:E2; cbn [year month day].
  - apply Z.ltb_lt in E2. unfold days_before_month.
    destruct (is_leap y) eqn:L; each_month Hm; tables; rewrite ?L in *; lia.
  - apply Z.ltb_ge in E2. assert (m = 12) as -> by lia.
    rewrite days_before_year_succ. unfold days_before_month.
    destruct (is_leap (y + 1)); destruct (is_leap y); tables; lia.
Qed.

Lemma toordinal_prev dt :
  calendar_date dt -> toordinal (prev_day dt) = toordinal dt - 1.
Proof.
  destruct dt as [y m d]. unfold calendar_date, prev_day, toordinal, ymd2ord.
  cbn [year month day]. intros [Hm Hd].
  destruct (1 <? d) eqn:E1; cbn [year month day]; [lia |].
  apply Z.ltb_ge in E1. assert (d = 1) as -> by lia.
  destruct (1 <? m) eqn:E2; cbn [year month day].
  - apply Z.ltb_lt in E2. unfold days_before_month.
    destruct (is_leap y) eqn:L; each_month Hm; tables; rewrite ?L in *; lia.
  - apply Z.ltb_ge in E2. assert (m = 1) as -> by lia.
    pose proof (days_before_year_succ (y - 1)) as S.
    replace (y - 1 + 1) with y in S by lia.
    unfold days_before_month.
    destruct (is_leap (y - 1)); destruct (is_leap y); tables; lia.
Qed.

Lemma iter_day_ordinal step delta n :
  (forall dt, calendar_date dt ->
              calendar_date (step dt) /\ toordinal (step dt) = toordinal dt + delta) ->
  forall dt, calendar_date dt ->
    calendar_date (iter_day step n dt)
    /\ toordinal (iter_day step n dt) = toordinal dt + Z.of_nat n * delta.
Proof.
  intros Hstep. induction n as [| n IH]; intros dt Hdt.
  - cbn [iter_day]. split; [assumption | lia].
  - cbn [iter_day]. destruct (Hstep dt Hdt) as [Hc Ho].
    destruct (IH (step dt) Hc) as [Hc' Ho']. split; [assumption | lia].
Qed.

Lemma days_from_ordinal dt k :
  calendar_date dt ->
  calendar_date (days_from dt k)
  /\ toordinal (days_from dt k) = toordinal dt + k.
Proof.
  intros Hdt. unfold days_from. destruct (0 <=? k) eqn:E.
  - apply Z.leb_le in E.
    assert (forall d, calendar_date d ->
              calendar_date (next_day d)
              /\ toordinal (next_day d) = toordinal d + 1) as Hstep
      by (intros d Hd; split;
          [apply calendar_date_next | apply toordinal_next]; assumption).
    destruct (iter_day_ordinal _ _ (Z.to_nat k) Hstep dt Hdt) as [H1 H2].
    split; [assumption | lia].
  - apply Z.leb_gt in E.
    assert (forall d, calendar_date d ->
              calendar_date (prev_day d)
              /\ toordinal (prev_day d) = toordinal d + -1) as Hstep
      by (intros d Hd; split;
          [apply calendar_date_prev; assumption
          | rewrite (toordinal_prev d Hd); lia]).
    destruct (iter_day_ordinal _ _ (Z.to_nat (- k)) Hstep dt Hdt) as [H1 H2].
    split; [assumption | lia].
Qed.

Lemma days_before_year_mono y y' :
  y <= y' -> days_before_year y <= days_before_year y'.
Proof.
  unfold days_before_year. intros H. Z.div_mod_to_equations. lia.
Qed.

Lemma toordinal_range dt :
  calendar_date dt -> representable dt -> 0 < toordinal dt <= MAXORDINAL.
Proof.
  destruct dt as [y m d]. unfold calendar_date, representable, toordinal, ymd2ord, MINYEAR, MAXYEAR, MAXORDINAL.
  cbn [year month day]. intros [Hm Hd] Hy.
  pose proof (days_before_year_mono 1 y ltac:(lia)) as H1.
  pose proof (days_before_year_succ y) as H2.
  pose proof (days_before_year_mono (y + 1) 10000 ltac:(lia)) as H3.
  change (days_before_year 1) with 0 in H1.
  change (days_before_year 10000) with 3652059 in H3.
  unfold days_before_month.
  destruct (is_leap y) eqn:L; each_month Hm; tables; rewrite ?L in *; lia.
Qed.

(** ** Dates that [strptime] returns and days added to them *)

Lemma check_date_fields_spec y m d :
  check_date_fields y m d = true ->
  calendar_date (mkdate y m d) /\ representable (mkdate y m d).
Proof.
  unfold check_date_fields, calendar_date, representable.
  cbn [year month day].
  rewrite !andb_true_iff, !Z.leb_le. intros [[[[[H1 H2] H3] H4] H5] H6].
  rewrite days_in_month_length in H6 by lia. lia.
Qed.

Lemma make_date_ok y m d dt :
  make_date y m d = Ok dt ->
  dt = mkdate y m d /\ calendar_date dt /\ representable dt.
Proof.
  unfold make_date. destruct (check_date_fields y m d) eqn:E; [| discriminate].
  intros [= <-]. split; [reflexivity |]. apply check_date_fields_spec, E.
Qed.

Lemma strptime_ok s f dt :
  strptime s f = Ok dt -> calendar_date dt /\ representable dt.
Proof.
  unfold strptime. destruct (compile f) as [items |]; cbn [bind]; [| discriminate].
  destruct (re_match items s) as [[groups [| c rest]] |]; try discriminate.
  destruct (fold_left set_field groups (1900, 1, 1)) as [[y m] d].
  intros H. apply make_date_ok in H. tauto.
Qed.

Lemma fromordinal_toordinal dt :
  calendar_date dt -> ord2ymd (toordinal dt) = dt.
Proof.
  destruct dt as [y m d]. intros [Hm Hd]. apply ord2ymd_ymd2ord; assumption.
Qed.

Lemma date_add_days_from dt k :
  calendar_date dt -> representable dt -> representable (days_from dt k) ->
  timedelta k = Ok k /\ date_add dt k = Ok (days_from dt k).
Proof.
  intros Hc Hr Hr'.
  destruct (days_from_ordinal dt k Hc) as [Hc' Ho].
  pose proof (toordinal_range dt Hc Hr) as R.
  pose proof (toordinal_range _ Hc' Hr') as R'.
  unfold MAXORDINAL in *. split.
  - unfold timedelta.
    replace (Z.abs k <=? 999999999) with true; [reflexivity |].
    symmetry. apply Z.leb_le. lia.
  - unfold date_add, MAXORDINAL. rewrite <- Ho.
    replace ((0 <? _) && (_ <=? 3652059)) with true.
    + rewrite fromordinal_toordinal by assumption. reflexivity.
    + symmetry. apply andb_true_iff. rewrite Z.ltb_lt, Z.leb_le. lia.
Qed.

Lemma days_from_zero dt : days_from dt 0 = dt.
Proof. reflexivity. Qed.

(** ** [shift_date] on text that does not parse *)

Lemma compile_ok f :
  has_repeat (directives f) = false -> compile f = Ok (pattern f).
Proof. unfold compile. intros ->. reflexivity. Qed.

Lemma strptime_outcomes s f :
  has_repeat (directives f) = false ->
  (exists dt, strptime s f = Ok dt) \/ strptime s f = Raise ValueError.
Proof.
  intros Hf. unfold strptime. rewrite (compile_ok f Hf). cbn [bind].
  destruct (re_match (pattern f) s) as [[groups [| c rest]] |]; auto.
  destruct (fold_left set_field groups (1900, 1, 1)) as [[y m] d].
  unfold make_date. destruct (check_date_fields y m d); eauto.
Qed.

(** When no directive occurs twice in the format, text that does not parse
    comes back as it is, with one warning logged and nothing raised. *)
Lemma shift_date_unparsable pad date_str k f :
  has_repeat (directives f) = false ->
  (forall dt, strptime date_str f <> Ok dt) ->
  shift_date pad date_str k f
  = ([Warning_unparsable date_str ValueError], Ok date_str).
Proof.
  intros Hf Hn. unfold shift_date, shift_date_try.
  destruct (strptime_outcomes date_str f Hf) as [[dt H] | H].
  - exfalso. exact (Hn dt H).
  - rewrite H. reflexivity.
Qed.

(** ** [str.replace] *)

Lemma starts_with_split old s :
  starts_with old s = true -> s = old ++ skipn (length old) s.
Proof.
  revert s. induction old as [| o old IH]; intros s H.
  - reflexivity.
  - destruct s as [| c s]; [discriminate |].
    cbn [starts_with] in H. apply andb_true_iff in H. destruct H as [Hc Hs].
    apply Ascii.eqb_eq in Hc. subst c.
    cbn [length skipn app]. f_equal. apply IH, Hs.
Qed.

Lemma starts_with_app old s : starts_with old (old ++ s) = true.
Proof.
  induction old as [| o old IH]; [reflexivity |].
  cbn [app starts_with]. rewrite Ascii.eqb_refl. exact IH.
Qed.

Lemma starts_with_extend old x y :
  starts_with old x = true -> starts_with old (x ++ y) = true.
Proof.
  intros H. rewrite (starts_with_split old x H), <- app_assoc.
  apply starts_with_app.
Qed.

Lemma starts_with_length old s :
  starts_with old s = true -> (length old <= length s)%nat.
Proof.
  intros H. apply starts_with_split in H.
  apply (f_equal (@length ascii)) in H. rewrite length_app in H. lia.
Qed.

Lemma replace_from_skip old new n s :
  replace_from old new n s = replace_from old new 0 (skipn n s).
Proof.
  revert n. induction s as [| c s IH]; intros n.
  - destruct n; reflexivity.
  - destruct n as [| n]; [reflexivity |].
    cbn [replace_from skipn]. apply IH.
Qed.

Lemma replace_from_match old new s :
  old <> [] ->
  replace_from old new 0 (old ++ s) = new ++ replace_from old new 0 s.
Proof.
  intros Ho. destruct old as [| o old]; [contradiction |].
  cbn [app replace_from].
  replace (starts_with (o :: old) (o :: old ++ s)) with true
    by (symmetry; apply (starts_with_app (o :: old))).
  rewrite replace_from_skip.
  replace (length (o :: old) - 1)%nat with (length old)
    by (cbn [length]; lia).
  rewrite skipn_app, skipn_all, Nat.sub_diag. reflexivity.
Qed.

Lemma replace_from_no_match old new c s :
  starts_with old (c :: s) = false ->
  replace_from old new 0 (c :: s) = c :: replace_from old new 0 s.
Proof. intros H. cbn [replace_from]. rewrite H. reflexivity. Qed.

Lemma occurs_shorter old s :
  (length s < length old)%nat -> occurs old s = false.
Proof.
  induction s as [| c s IH]; intros H.
  - destruct old; [cbn in H; lia | reflexivity].
  - cbn [occurs]. rewrite IH by (cbn [length] in H; lia).
    rewrite orb_false_r.
    destruct (starts_with old (c :: s)) eqn:E; [| reflexivity].
    apply starts_with_length in E. lia.
Qed.

Lemma replaced_all_cons old new c s r :
  old <> [] ->
  starts_with old (c :: s) = false ->
  replaced_all old new s r -> replaced_all old new (c :: s) (c :: r).
Proof.
  intros Ho Hc H. destruct H as [s Hn | p rest rest' Hp Hr].
  - apply replaced_none. cbn [occurs]. rewrite Hc, Hn. reflexivity.
  - apply (replaced_first old new (c :: p) rest rest'); [| exact Hr].
    cbn [app occurs]. rewrite Hp, orb_false_r.
    destruct (starts_with old (c :: p ++ removelast old)) eqn:E;
      [| reflexivity].
    assert (starts_with old (c :: p ++ old ++ rest) = true) as Ht.
    { replace (c :: p ++ old ++ rest)
        with ((c :: p ++ removelast old) ++ [last old "000"%char] ++ rest).
      - apply starts_with_extend, E.
      - rewrite <- app_comm_cons. f_equal.
        rewrite (app_removelast_last "000"%char Ho) at 3.
        rewrite <- !app_assoc. reflexivity. }
    rewrite Hc in Ht. discriminate.
Qed.

Lemma replace_from_replaced_all old new :
  old <> [] ->
  forall n s, (length s <= n)%nat ->
              replaced_all old new s (replace_from old new 0 s).
Proof.
  intros Ho. induction n as [| n IH]; intros s Hn.
  - destruct s; [| cbn in Hn; lia].
    apply replaced_none. destruct old; [contradiction | reflexivity].
  - destruct s as [| c s].
    + apply replaced_none. destruct old; [contradiction | reflexivity].
    + destruct (starts_with old (c :: s)) eqn:E.
      * pose proof (starts_with_length _ _ E) as Hl.
        rewrite (starts_with_split _ _ E).
        rewrite replace_from_match by assumption.
        apply (replaced_first old new [] _ _).
        -- cbn [app]. apply occurs_shorter.
           rewrite removelast_firstn_len, length_firstn.
           destruct old; [contradiction | cbn [length]; lia].
        -- apply IH. rewrite length_skipn.
           destruct old; [contradiction | cbn [length] in *; lia].
      * rewrite replace_from_no_match by assumption.
        apply replaced_all_cons; [assumption | assumption |].
        apply IH. cbn [length] in Hn. lia.
Qed.

Lemma replace_replaced_all old new s :
  old <> [] -> replaced_all old new s (replace s old new).
Proof.
  intros Ho. destruct old as [| o old]; [contradiction |].
  cbn [replace]. apply (replace_from_replaced_all _ new Ho (length s)).
  lia.
Qed.

(** ** The loop of [process_file] as a fold *)

Lemma fold_step_raise pad k f w e dates :
  fold_left (fold_step pad k f) dates (w, Raise e) = (w, Raise e).
Proof. induction dates as [| c dates IH]; [reflexivity | exact IH]. Qed.

Lemma shift_loop_fold pad k f dates :
  forall w content,
    fold_left (fold_step pad k f) dates (w, Ok content)
    = (w ++ fst (shift_loop pad dates k f content),
       snd (shift_loop pad dates k f content)).
Proof.
  induction dates as [| c dates IH]; intros w content.
  - cbn. rewrite app_nil_r. reflexivity.
  - cbn [fold_left shift_loop fold_step].
    destruct (shift_date pad c k f) as [w' [shifted | e]].
    + rewrite IH.
      destruct (shift_loop pad dates k f (replace content c shifted))
        as [w'' r].
      cbn [fst snd]. rewrite app_assoc. reflexivity.
    + rewrite fold_step_raise. reflexivity.
Qed.

(** ** Text that no replacement reaches *)

Lemma starts_with_stop old a x b :
  ~ In x old ->
  starts_with old (a ++ x :: b) = starts_with old a.
Proof.
  revert a. induction old as [| o old IH]; intros a Hx; [reflexivity |].
  destruct a as [| y a]; cbn [app starts_with].
  - destruct (Ascii.eqb o x) eqn:E; [| reflexivity].
    apply Ascii.eqb_eq in E. subst o. exfalso. apply Hx. left. reflexivity.
  - rewrite IH; [reflexivity |]. intros H. apply Hx. right. exact H.
Qed.

Lemma replace_from_stop old new x b :
  old <> [] -> ~ In x old ->
  forall a n, (n <= length a)%nat ->
    replace_from old new n (a ++ x :: b)
    = replace_from old new n a ++ x :: replace_from old new 0 b.
Proof.
  intros Ho Hx. induction a as [| y a IH]; intros n Hn.
  - cbn [length] in Hn. assert (n = 0%nat) as -> by lia.
    cbn [app replace_from].
    replace (starts_with old (x :: b)) with false; [reflexivity |].
    symmetry. pose proof (starts_with_stop old [] x b Hx) as H.
    cbn [app] in H. rewrite H.
    destruct old; [contradiction | reflexivity].
  - destruct n as [| n].
    + cbn [app replace_from].
      change (y :: a ++ x :: b) with ((y :: a) ++ x :: b).
      rewrite (starts_with_stop old (y :: a) x b Hx).
      destruct (starts_with old (y :: a)) eqn:E.
      * apply starts_with_length in E. cbn [length] in E.
        rewrite IH by lia. rewrite app_assoc. reflexivity.
      * rewrite IH by lia. reflexivity.
    + cbn [app replace_from]. apply IH. cbn [length] in Hn. lia.
Qed.

Lemma replace_frame old new a g b :
  old <> [] -> g <> [] -> (forall x, In x g -> ~ In x old) ->
  replace (a ++ g ++ b) old new = replace a old new ++ g ++ replace b old new.
Proof.
  intros Ho Hg Hx. destruct old as [| o old]; [contradiction |].
  cbn [replace]. clear Ho.
  assert (Ho : o :: old <> []) by discriminate.
  revert a. induction g as [| x g IH]; [contradiction |]. intros a.
  cbn [app]. rewrite replace_from_stop; [| assumption | | lia].
  2:{ apply Hx. left. reflexivity. }
  f_equal. f_equal. destruct g as [| x' g].
  - reflexivity.
  - change (replace_from (o :: old) new 0 ((x' :: g) ++ b))
      with (replace_from (o :: old) new 0 ([] ++ (x' :: g) ++ b)).
    rewrite IH; [reflexivity | discriminate |].
    intros z Hz. apply Hx. right. exact Hz.
Qed.

(** What [findall] yields is made of digits and separators. *)
Lemma match_classes_firstn (P : ascii -> bool) cs s :
  (forall k, In k cs -> forall c, k c = true -> P c = true) ->
  match_classes cs s = true ->
  forallb P (firstn (length cs) s) = true
  /\ length (firstn (length cs) s) = length cs.
Proof.
  revert s. induction cs as [| k cs IH]; intros s Hk Hm; [split; reflexivity |].
  destruct s as [| c s]; [discriminate |].
  cbn [match_classes] in Hm. apply andb_true_iff in Hm. destruct Hm as [Hc Hs].
  destruct (IH s) as [H1 H2]; [intros k' Hk'; apply Hk; right; exact Hk' | exact Hs |].
  cbn [length firstn forallb]. rewrite H1, H2.
  rewrite (Hk k (or_introl eq_refl) c Hc). split; reflexivity.
Qed.

Lemma search_firstn (P : ascii -> bool) pat s n :
  (forall a, In a pat -> a <> []
             /\ forall k, In k a -> forall c, k c = true -> P c = true) ->
  search pat s = Some n ->
  forallb P (firstn n s) = true /\ firstn n s <> [].
Proof.
  induction pat as [| a pat IH]; intros Hp Hs; [discriminate |].
  cbn [search] in Hs. destruct (match_classes a s) eqn:E.
  - injection Hs as Hn. subst n.
    destruct (Hp a (or_introl eq_refl)) as [Ha Hk].
    destruct (match_classes_firstn P a s Hk E) as [H1 H2].
    split; [exact H1 |]. intros H0. unfold cclass in *. rewrite H0 in H2.
    destruct a; [contradiction | discriminate].
  - apply IH; [| exact Hs]. intros a' Ha'. apply Hp. right. exact Ha'.
Qed.

Lemma findall_from_all (P : ascii -> bool) pat :
  (forall a, In a pat -> a <> []
             /\ forall k, In k a -> forall c, k c = true -> P c = true) ->
  forall s skip c,
    In c (findall_from pat skip s) -> forallb P c = true /\ c <> [].
Proof.
  intros Hp. induction s as [| x s IH]; intros skip c Hc; [contradiction |].
  cbn [findall_from] in Hc. destruct skip as [| k].
  - destruct (search pat (x :: s)) as [n |] eqn:E.
    + destruct Hc as [<- | Hc]; [| exact (IH _ _ Hc)].
      exact (search_firstn P pat _ _ Hp E).
    + exact (IH _ _ Hc).
  - exact (IH _ _ Hc).
Qed.

Lemma date_pattern_chars a :
  In a date_pattern ->
  a <> [] /\ forall k, In k a -> forall c, k c = true -> date_char c = true.
Proof.
  assert (Hd : forall c, is_digit c = true -> date_char c = true)
    by (intros c H; unfold date_char; rewrite H; reflexivity).
  assert (Hs : forall c, is_sep c = true -> date_char c = true)
    by (intros c H; unfold date_char; rewrite H; apply orb_true_r).
  assert (Hm : forall c, exactly "-" c = true -> date_char c = true)
    by (intros c H; apply Ascii.eqb_eq in H; subst c; reflexivity).
  unfold date_pattern. intros Ha.
  repeat (destruct Ha as [<- | Ha]; [split; [discriminate |];
    intros k Hk; repeat (destruct Hk as [<- | Hk]; [assumption |]);
    contradiction |]).
  contradiction.
Qed.

Lemma findall_date_chars s c :
  In c (findall date_pattern s) -> forallb date_char c = true /\ c <> [].
Proof.
  apply (findall_from_all date_char date_pattern date_pattern_chars).
Qed.

Lemma shift_loop_frame pad k f g :
  g <> [] ->
  (forall x, In x g -> date_char x = false) ->
  forall dates,
    (forall c, In c dates -> forallb date_char c = true /\ c <> []) ->
    forall a b out,
      snd (shift_loop pad dates k f (a ++ g ++ b)) = Ok out ->
      exists a' b',
        snd (shift_loop pad dates k f a) = Ok a'
        /\ snd (shift_loop pad dates k f b) = Ok b'
        /\ out = a' ++ g ++ b'.
Proof.
  intros Hg Hx. induction dates as [| c dates IH]; intros Hd a b out H.
  - cbn in H. injection H as <-. exists a, b. repeat split.
  - cbn [shift_loop] in *.
    destruct (shift_date pad c k f) as [w [shifted | e]];
      [| discriminate].
    destruct (Hd c (or_introl eq_refl)) as [Hc Hn].
    rewrite replace_frame in H; [| assumption | assumption |].
    2:{ intros x Hin Hin'. rewrite forallb_forall in Hc.
        specialize (Hc x Hin'). rewrite (Hx x Hin) in Hc. discriminate. }
    destruct (shift_loop pad dates k f
                (replace a c shifted ++ g ++ replace b c shifted))
      as [w1 r1] eqn:E1.
    cbn [snd] in H. subst r1.
    destruct (IH (fun c' Hc' => Hd c' (or_intror Hc'))
                 (replace a c shifted) (replace b c shifted) out)
      as (a' & b' & Ha & Hb & Ho).
    { rewrite E1. reflexivity. }
    exists a', b'.
    destruct (shift_loop pad dates k f (replace a c shifted)) as [w2 r2].
    destruct (shift_loop pad dates k f (replace b c shifted)) as [w3 r3].
    cbn [snd] in *. auto.
Qed.

(** ** Rendering a date and parsing it back *)

Lemma digit_cases k :
  0 <= k <= 9 ->
  k = 0 \/ k = 1 \/ k = 2 \/ k = 3 \/ k = 4 \/ k = 5 \/ k = 6 \/ k = 7
  \/ k = 8 \/ k = 9.
Proof. lia. Qed.

Ltac each_digit H :=
  apply digit_cases in H;
  repeat (destruct H as [-> | H]); [.. | subst].

Lemma digit_char_facts k :
  0 <= k <= 9 ->
  is_digit (digit_char k) = true
  /\ is_space (digit_char k) = false
  /\ digit_val (digit_char k) = k.
Proof. intros H. each_digit H; repeat split; reflexivity. Qed.

Lemma digits_in_range n :
  0 <= n ->
  0 <= n mod 10 <= 9 /\ 0 <= n / 10 mod 10 <= 9
  /\ 0 <= n / 100 mod 10 <= 9 /\ 0 <= n / 1000 mod 10 <= 9.
Proof. intros H. repeat split; Z.div_mod_to_equations; lia. Qed.

Lemma int_of_pad2 n : 0 <= n <= 99 -> int_of_text (pad2 n) = n.
Proof.
  intros H. destruct (digits_in_range n) as (H0 & H1 & _); [lia |].
  unfold int_of_text, pad2. cbn [fold_left].
  destruct (digit_char_facts _ H0) as (-> & _ & ->).
  destruct (digit_char_facts _ H1) as (-> & _ & ->).
  Z.div_mod_to_equations. lia.
Qed.

Lemma int_of_pad4 n : 0 <= n <= 9999 -> int_of_text (pad4 n) = n.
Proof.
  intros H. destruct (digits_in_range n) as (H0 & H1 & H2 & H3); [lia |].
  unfold int_of_text, pad4. cbn [fold_left].
  destruct (digit_char_facts _ H0) as (-> & _ & ->).
  destruct (digit_char_facts _ H1) as (-> & _ & ->).
  destruct (digit_char_facts _ H2) as (-> & _ & ->).
  destruct (digit_char_facts _ H3) as (-> & _ & ->).
  Z.div_mod_to_equations. lia.
Qed.

Lemma strip_zeros_pad4 n :
  1000 <= n <= 9999 -> strip_zeros (pad4 n) = pad4 n.
Proof.
  intros H. unfold pad4. cbn [strip_zeros].
  assert (1 <= n / 1000 mod 10 <= 9) as Hk by (Z.div_mod_to_equations; lia).
  revert Hk. generalize (n / 1000 mod 10). intros k Hk.
  assert (0 <= k <= 9) as Hk' by lia.
  each_digit Hk'; try (exfalso; lia); reflexivity.
Qed.

Lemma render_year pad dt :
  representable dt -> (pad = true \/ 1000 <= year dt) ->
  render_directive pad DY dt = pad4 (year dt).
Proof.
  unfold representable, MINYEAR, MAXYEAR. intros Hr Hp.
  cbn [render_directive]. destruct pad; [reflexivity |].
  destruct Hp as [Hp | Hp]; [discriminate |].
  apply strip_zeros_pad4. lia.
Qed.

Lemma month_length_bound y m : month_length y m <= 31.
Proof.
  unfold month_length.
  repeat match goal with
         | |- context [match ?x with _ => _ end] => destruct x
         end; lia.
Qed.

(** The first alternative of a group that matches the rendering takes all
    of it. *)
Lemma choices_render pad dt d t :
  calendar_date dt -> representable dt -> (pad = true \/ 1000 <= year dt) ->
  exists rest,
    choices (RGroup d) (render_directive pad d dt ++ t)
    = length (render_directive pad d dt) :: rest.
Proof.
  intros [Hm Hd] Hr Hp. destruct d.
  - rewrite render_year by assumption.
    destruct (digits_in_range (year dt)) as (H0 & H1 & H2 & H3);
      [unfold representable, MINYEAR in Hr; lia |].
    unfold pad4. cbn [choices group_alternatives filter app match_classes].
    destruct (digit_char_facts _ H0) as (-> & _ & _).
    destruct (digit_char_facts _ H1) as (-> & _ & _).
    destruct (digit_char_facts _ H2) as (-> & _ & _).
    destruct (digit_char_facts _ H3) as (-> & _ & _).
    cbn. eexists. reflexivity.
  - cbn [render_directive]. apply month_cases in Hm.
    repeat (destruct Hm as [-> | Hm]; [eexists; reflexivity |]).
    rewrite Hm. eexists; reflexivity.
  - cbn [render_directive].
    assert (day dt <= 31) as Hd'
      by (pose proof (month_length_bound (year dt) (month dt)); lia).
    assert (day dt = 1 \/ day dt = 2 \/ day dt = 3 \/ day dt = 4
            \/ day dt = 5 \/ day dt = 6 \/ day dt = 7 \/ day dt = 8
            \/ day dt = 9 \/ day dt = 10 \/ day dt = 11 \/ day dt = 12
            \/ day dt = 13 \/ day dt = 14 \/ day dt = 15 \/ day dt = 16
            \/ day dt = 17 \/ day dt = 18 \/ day dt = 19 \/ day dt = 20
            \/ day dt = 21 \/ day dt = 22 \/ day dt = 23 \/ day dt = 24
            \/ day dt = 25 \/ day dt = 26 \/ day dt = 27 \/ day dt = 28
            \/ day dt = 29 \/ day dt = 30 \/ day dt = 31) as Hc by lia.
    repeat (destruct Hc as [-> | Hc]; [eexists; reflexivity |]).
    rewrite Hc. eexists; reflexivity.
  - cbn [render_directive].
    assert (0 <= year dt mod 100) as Hy by (Z.div_mod_to_equations; lia).
    destruct (digits_in_range _ Hy) as (H0 & H1 & _).
    unfold pad2. cbn [choices group_alternatives filter app match_classes].
    destruct (digit_char_facts _ H0) as (-> & _ & _).
    destruct (digit_char_facts _ H1) as (-> & _ & _).
    cbn. eexists. reflexivity.
Qed.

Lemma render_not_space pad d dt t :
  calendar_date dt -> representable dt ->
  count_spaces (render_directive pad d dt ++ t) = 0%nat.
Proof.
  intros Hc Hr.
  assert (forall n, 0 <= n -> count_spaces (pad2 n ++ t) = 0%nat) as H2.
  { intros n Hn. destruct (digits_in_range n Hn) as (_ & H1 & _).
    unfold pad2. cbn [app count_spaces].
    destruct (digit_char_facts _ H1) as (_ & -> & _). reflexivity. }
  assert (forall n, 0 <= n -> count_spaces (pad4 n ++ t) = 0%nat) as H4.
  { intros n Hn. destruct (digits_in_range n Hn) as (_ & _ & _ & H3).
    unfold pad4. cbn [app count_spaces].
    destruct (digit_char_facts _ H3) as (_ & -> & _). reflexivity. }
  destruct Hc as [Hm Hd]. unfold representable, MINYEAR, MAXYEAR in Hr.
  destruct d; cbn [render_directive].
  - destruct pad; [apply H4; lia |].
    destruct (Z_lt_ge_dec (year dt) 1000) as [Hy | Hy].
    + assert (year dt / 1000 mod 10 = 0) as E
        by (Z.div_mod_to_equations; lia).
      destruct (digits_in_range (year dt)) as (H0 & H1 & H2' & _); [lia |].
      unfold pad4. rewrite E. revert H0 H1 H2'.
      generalize (year dt mod 10) (year dt / 10 mod 10)
                 (year dt / 100 mod 10).
      intros a b c Ha Hb Hc'.
      each_digit Ha; each_digit Hb; each_digit Hc'; reflexivity.
    + rewrite strip_zeros_pad4 by lia. apply H4. lia.
  - apply H2. lia.
  - apply H2. lia.
  - apply H2. Z.div_mod_to_equations. lia.
Qed.

Lemma pattern_space c f :
  is_space c = true ->
  pattern (Lit c :: f)
  = if starts_with_space f then pattern f else RSpaces :: pattern f.
Proof.
  intros Hc. cbn [pattern]. rewrite Hc.
  destruct f as [| [c' | d] f]; cbn [starts_with_space pattern];
    try reflexivity.
  destruct (is_space c') eqn:E; [| reflexivity].
  destruct (pattern f) as [| [| |] p]; reflexivity.
Qed.

Lemma pattern_starts_with_space f :
  starts_with_space f = true -> exists p, pattern f = RSpaces :: p.
Proof.
  destruct f as [| [c | d] f]; cbn [starts_with_space]; try discriminate.
  intros Hc. cbn [pattern]. rewrite Hc.
  destruct (pattern f) as [| [| |] p]; eexists; reflexivity.
Qed.

Lemma down_from_succ m : down_from (S m) = map S (down_from m) ++ [1%nat].
Proof.
  induction m as [| m IH]; [reflexivity |].
  change (down_from (S (S m))) with (S (S m) :: down_from (S m)).
  rewrite IH at 1. reflexivity.
Qed.

Lemma first_some_app {A B : Type} (F : A -> option B) l l' r :
  first_some F l = Some r -> first_some F (l ++ l') = Some r.
Proof.
  induction l as [| a l IH]; [discriminate |].
  cbn [app first_some]. destruct (F a); [auto | exact IH].
Qed.

Lemma first_some_map {A B C : Type} (F : B -> option C) (g : A -> B) l :
  first_some F (map g l) = first_some (fun a => F (g a)) l.
Proof.
  induction l as [| a l IH]; [reflexivity |].
  cbn [map first_some]. rewrite IH. reflexivity.
Qed.

Lemma first_some_ext {A B : Type} (F G : A -> option B) l :
  (forall a, F a = G a) -> first_some F l = first_some G l.
Proof.
  intros H. induction l as [| a l IH]; [reflexivity |].
  cbn [first_some]. rewrite H, IH. reflexivity.
Qed.

Lemma re_match_spaces p c t r :
  is_space c = true ->
  re_match (RSpaces :: p) t = Some r ->
  re_match (RSpaces :: p) (c :: t) = Some r.
Proof.
  intros Hc H. cbn [re_match choices] in *.
  cbn [count_spaces]. rewrite Hc. rewrite down_from_succ.
  apply first_some_app. rewrite first_some_map.
  rewrite <- H. apply first_some_ext. intros n. reflexivity.
Qed.

Lemma strftime_no_space pad dt f :
  calendar_date dt -> representable dt ->
  starts_with_space f = false -> count_spaces (strftime pad dt f) = 0%nat.
Proof.
  intros Hc Hr. destruct f as [| [c | d] f]; cbn [starts_with_space strftime].
  - reflexivity.
  - intros E. cbn [count_spaces]. rewrite E. reflexivity.
  - intros _. apply render_not_space; assumption.
Qed.

Lemma ci_eqb_refl c : ci_eqb c c = true.
Proof. unfold ci_eqb. apply Ascii.eqb_refl. Qed.

Lemma re_match_strftime pad dt f :
  calendar_date dt -> representable dt -> (pad = true \/ 1000 <= year dt) ->
  re_match (pattern f) (strftime pad dt f)
  = Some (rendered_groups pad dt f, []).
Proof.
  intros Hc Hr Hp. induction f as [| [c | d] f IH].
  - reflexivity.
  - destruct (is_space c) eqn:Es.
    + rewrite pattern_space by assumption. cbn [strftime rendered_groups].
      destruct (starts_with_space f) eqn:Ef.
      * destruct (pattern_starts_with_space f Ef) as [p Hpat].
        rewrite Hpat in *. apply re_match_spaces; assumption.
      * cbn [re_match choices count_spaces]. rewrite Es.
        rewrite (strftime_no_space pad dt f Hc Hr Ef).
        cbn [down_from first_some skipn]. rewrite IH. reflexivity.
    + cbn [pattern]. rewrite Es.
      cbn [strftime rendered_groups re_match choices].
      rewrite ci_eqb_refl. cbn [first_some skipn]. rewrite IH. reflexivity.
  - cbn [pattern strftime rendered_groups re_match].
    destruct (choices_render pad dt d (strftime pad dt f) Hc Hr Hp)
      as [rest ->].
    cbn [first_some].
    rewrite skipn_app, skipn_all, Nat.sub_diag.
    rewrite firstn_app, firstn_all, Nat.sub_diag.
    cbn [skipn firstn app]. rewrite IH, app_nil_r. reflexivity.
Qed.

Lemma set_fields_rendered pad dt f :
  calendar_date dt -> representable dt -> (pad = true \/ 1000 <= year dt) ->
  uses Dy f = false ->
  forall y m d,
    fold_left set_field (rendered_groups pad dt f) (y, m, d)
    = (if uses DY f then year dt else y,
       if uses Dm f then month dt else m,
       if uses Dd f then day dt else d).
Proof.
  intros Hc Hr Hp. unfold uses.
  destruct Hc as [Hm Hd]. 
  assert (day dt <= 31) as Hd'
    by (pose proof (month_length_bound (year dt) (month dt)); lia).
  induction f as [| [c | dir] f IH]; intros Hy y m d.
  - reflexivity.
  - cbn [rendered_groups directives]. apply IH, Hy.
  - cbn [directives existsb] in Hy. apply orb_false_iff in Hy.
    destruct Hy as [Hy1 Hy2].
    cbn [rendered_groups directives existsb fold_left].
    destruct dir; try discriminate;
      cbn [set_field fst snd directive_eqb orb].
    + rewrite render_year by assumption.
      rewrite int_of_pad4
        by (unfold representable, MINYEAR, MAXYEAR in Hr; lia).
      rewrite IH by assumption.
      destruct (existsb (directive_eqb DY) (directives f)); reflexivity.
    + cbn [render_directive]. rewrite int_of_pad2 by lia.
      rewrite IH by assumption.
      destruct (existsb (directive_eqb Dm) (directives f)); reflexivity.
    + cbn [render_directive]. rewrite int_of_pad2 by lia.
      rewrite IH by assumption.
      destruct (existsb (directive_eqb Dd) (directives f)); reflexivity.
Qed.

Lemma check_date_fields_calendar dt :
  calendar_date dt -> representable dt ->
  check_date_fields (year dt) (month dt) (day dt) = true.
Proof.
  intros [Hm Hd] Hr. unfold representable in Hr. unfold check_date_fields.
  rewrite days_in_month_length by assumption.
  rewrite !andb_true_iff, !Z.leb_le. lia.
Qed.

(** Every calendar date whose year has four digits (or any year from 1 on,
    where [%Y] is filled with zeros) is read back in every format with
    [%Y], [%m] and [%d], whatever the literal text around them. *)
Lemma full_format_reads_back pad dt f :
  calendar_date dt -> representable dt -> (pad = true \/ 1000 <= year dt) ->
  full_format f = true ->
  reads_back pad dt f.
Proof.
  intros Hc Hr Hp Hf. unfold full_format in Hf.
  rewrite !andb_true_iff, !negb_true_iff in Hf.
  destruct Hf as [[[[Hrep HY] Hm] Hd] Hy].
  unfold reads_back, strptime. rewrite (compile_ok f Hrep). cbn [bind].
  rewrite re_match_strftime by assumption.
  rewrite set_fields_rendered by assumption.
  rewrite HY, Hm, Hd. unfold make_date.
  rewrite check_date_fields_calendar by assumption.
  destruct dt; reflexivity.
Qed.




(** ** The scanner *)

Lemma findall_from_skip pat n s :
  findall_from pat n s = findall_from pat 0 (skipn n s).
Proof.
  revert n. induction s as [| c s IH]; intros n.
  - destruct n; reflexivity.
  - destruct n as [| n]; [reflexivity |].
    cbn [findall_from skipn]. apply IH.
Qed.

(** Where an alternative matches, the match is produced and the scan goes
    on after it: matches do not overlap. *)
Lemma findall_match pat m rest :
  m <> [] -> search pat (m ++ rest) = Some (length m) ->
  findall pat (m ++ rest) = m :: findall pat rest.
Proof.
  intros Hm Hs. destruct m as [| c m]; [contradiction |].
  unfold findall. cbn [app findall_from].
  change (c :: m ++ rest) with ((c :: m) ++ rest). rewrite Hs.
  rewrite firstn_app, firstn_all, Nat.sub_diag. cbn [firstn].
  rewrite app_nil_r. f_equal.
  rewrite findall_from_skip.
  replace (length (c :: m) - 1)%nat with (length m) by (cbn [length]; lia).
  rewrite skipn_app, skipn_all, Nat.sub_diag. reflexivity.
Qed.

(** Where no alternative matches, the scan moves on by one character. *)
Lemma findall_no_match pat c s :
  search pat (c :: s) = None -> findall pat (c :: s) = findall pat s.
Proof. intros Hs. unfold findall. cbn [findall_from]. rewrite Hs. reflexivity. Qed.

Lemma search_length pat s n :
  search pat s = Some n -> exists a, In a pat /\ n = length a.
Proof.
  induction pat as [| a pat IH]; [discriminate |].
  cbn [search]. destruct (match_classes a s).
  - intros [= <-]. exists a. split; [left |]; reflexivity.
  - intros H. destruct (IH H) as (a' & Ha & Hn).
    exists a'. split; [right |]; assumption.
Qed.

Lemma gaps_from_cons pat skip s :
  exists g gs, gaps_from pat skip s = g :: gs.
Proof.
  revert skip. induction s as [| c s IH]; intros skip.
  - eexists _, _. reflexivity.
  - cbn [gaps_from]. destruct skip as [| k]; [| apply IH].
    destruct (search pat (c :: s)); [eexists _, _; reflexivity |].
    destruct (IH 0%nat) as (g & gs & ->). eexists _, _. reflexivity.
Qed.

(** The regions and the candidates, taken in turn, make up the text. *)
Lemma weave_gaps_findall pat :
  (forall a, In a pat -> a <> []) ->
  forall s skip,
    weave (gaps_from pat skip s) (findall_from pat skip s) = skipn skip s.
Proof.
  intros Hp. induction s as [| c s IH]; intros skip.
  - destruct skip; reflexivity.
  - cbn [gaps_from findall_from]. destruct skip as [| k]; [| apply IH].
    destruct (search pat (c :: s)) as [n |] eqn:E.
    + destruct (search_length _ _ _ E) as (a & Ha & ->).
      specialize (Hp a Ha). destruct a as [| x a]; [contradiction |].
      replace (length (x :: a) - 1)%nat with (length a)
        by (cbn [length]; lia).
      cbn [weave app]. rewrite IH. cbn [length firstn skipn app].
      f_equal. apply firstn_skipn.
    + destruct (gaps_from_cons pat 0 s) as (g & gs & Hg).
      specialize (IH 0%nat). rewrite Hg in *. cbn [skipn] in *.
      destruct (findall_from pat 0 s) as [| m ms]; cbn [weave app] in *;
        rewrite IH; reflexivity.
Qed.

Lemma weave_date_pattern s :
  weave (gaps date_pattern s) (findall date_pattern s) = s.
Proof.
  apply (weave_gaps_findall date_pattern).
  intros a Ha. apply date_pattern_chars, Ha.
Qed.

(** ** Regions in which the scanner finds nothing *)

Lemma findall_nil_search pat s :
  findall pat s = [] ->
  forall u v, s = u ++ v -> v <> [] -> search pat v = None.
Proof.
  unfold findall. induction s as [| c s IH]; intros H u v Hs Hv.
  - destruct u; destruct v; try discriminate. contradiction.
  - cbn [findall_from] in H.
    destruct (search pat (c :: s)) as [n |] eqn:E; [discriminate |].
    destruct u as [| x u].
    + cbn [app] in Hs. subst v. exact E.
    + cbn [app] in Hs. injection Hs as _ Hs.
      exact (IH H u v Hs Hv).
Qed.

Lemma occurs_split c s :
  occurs c s = true -> exists u v, s = u ++ c ++ v.
Proof.
  induction s as [| x s IH]; cbn [occurs]; intros H.
  - rewrite orb_false_r in H. destruct c; [| discriminate].
    exists [], []. reflexivity.
  - apply orb_true_iff in H. destruct H as [H | H].
    + exists [], (skipn (length c) (x :: s)).
      cbn [app]. apply starts_with_split, H.
    + destruct (IH H) as (u & v & ->). exists (x :: u), v. reflexivity.
Qed.

Lemma occurs_app c u v : occurs c v = true -> occurs c (u ++ v) = true.
Proof.
  intros H. induction u as [| x u IH]; [exact H |].
  cbn [app occurs]. rewrite IH. apply orb_true_r.
Qed.

Lemma occurs_extend c s t : occurs c s = true -> occurs c (s ++ t) = true.
Proof.
  induction s as [| x s IH]; cbn [occurs app]; intros H.
  - rewrite orb_false_r in H. destruct c; [| discriminate].
    destruct t; reflexivity.
  - apply orb_true_iff in H. destruct H as [H | H].
    + change (x :: s ++ t) with ((x :: s) ++ t).
      rewrite (starts_with_extend _ _ t H). reflexivity.
    + rewrite (IH H). apply orb_true_r.
Qed.

Lemma match_classes_app a c v :
  match_classes a c = true -> match_classes a (c ++ v) = true.
Proof.
  revert c. induction a as [| k a IH]; intros c H; [reflexivity |].
  destruct c as [| x c]; [discriminate |].
  cbn [match_classes app] in *. apply andb_true_iff in H.
  destruct H as [-> H]. exact (IH c H).
Qed.

Lemma match_classes_prefix a s :
  match_classes a s = true -> match_classes a (firstn (length a) s) = true.
Proof.
  revert s. induction a as [| k a IH]; intros s H; [reflexivity |].
  destruct s as [| x s]; [discriminate |].
  cbn [match_classes length firstn] in *. apply andb_true_iff in H.
  destruct H as [-> H]. exact (IH s H).
Qed.

Lemma search_matches pat s n :
  search pat s = Some n ->
  exists a, In a pat /\ n = length a /\ match_classes a s = true.
Proof.
  induction pat as [| a pat IH]; [discriminate |].
  cbn [search]. destruct (match_classes a s) eqn:E.
  - intros [= <-]. exists a. repeat split; [left; reflexivity | exact E].
  - intros H. destruct (IH H) as (a' & Ha & Hn & Hm).
    exists a'. repeat split; [right |..]; assumption.
Qed.

Lemma search_found pat a s :
  In a pat -> match_classes a s = true -> search pat s <> None.
Proof.
  induction pat as [| a' pat IH]; [contradiction |].
  intros Ha Hm. cbn [search].
  destruct (match_classes a' s) eqn:E; [discriminate |].
  destruct Ha as [-> | Ha]; [rewrite Hm in E; discriminate |].
  exact (IH Ha Hm).
Qed.

Lemma findall_from_shape pat s skip c :
  In c (findall_from pat skip s) ->
  exists a, In a pat /\ match_classes a c = true.
Proof.
  revert skip. induction s as [| x s IH]; intros skip Hc; [contradiction |].
  cbn [findall_from] in Hc. destruct skip as [| k]; [| exact (IH _ Hc)].
  destruct (search pat (x :: s)) as [n |] eqn:E; [| exact (IH _ Hc)].
  destruct Hc as [<- | Hc]; [| exact (IH _ Hc)].
  destruct (search_matches _ _ _ E) as (a & Ha & -> & Hm).
  exists a. split; [exact Ha | apply match_classes_prefix, Hm].
Qed.

(** No candidate of any text occurs in a text in which the scanner finds
    nothing. *)
Lemma candidate_not_in_region s g c :
  In c (findall date_pattern s) -> findall date_pattern g = [] ->
  occurs c g = false.
Proof.
  intros Hc Hg. destruct (occurs c g) eqn:E; [| reflexivity].
  exfalso. destruct (occurs_split c g E) as (u & v & Hs).
  destruct (findall_from_shape _ _ _ _ Hc) as (a & Ha & Hm).
  destruct (findall_date_chars s c Hc) as [_ Hn].
  apply (search_found date_pattern a (c ++ v) Ha).
  - apply match_classes_app, Hm.
  - apply (findall_nil_search date_pattern g Hg u (c ++ v) Hs).
    destruct c; [contradiction | discriminate].
Qed.

Lemma replace_absent old new s :
  old <> [] -> occurs old s = false -> replace s old new = s.
Proof.
  intros Ho. destruct old as [| o old]; [contradiction |]. cbn [replace].
  induction s as [| c s IH]; intros H; [reflexivity |].
  cbn [occurs] in H. apply orb_false_iff in H. destruct H as [H1 H2].
  rewrite replace_from_no_match by exact H1. rewrite IH by exact H2.
  reflexivity.
Qed.

Lemma shift_loop_absent pad k f s :
  forall dates s',
    (forall c, In c dates -> c <> [] /\ occurs c s = false) ->
    snd (shift_loop pad dates k f s) = Ok s' -> s' = s.
Proof.
  induction dates as [| c dates IH]; intros s' Hd H.
  - cbn in H. injection H as <-. reflexivity.
  - cbn [shift_loop] in H.
    destruct (shift_date pad c k f) as [w [shifted | e]]; [| discriminate].
    destruct (Hd c (or_introl eq_refl)) as [Hn Ho].
    rewrite replace_absent in H by assumption.
    destruct (shift_loop pad dates k f s) as [w' r] eqn:E.
    cbn [snd] in H. subst r. apply IH.
    + intros c' Hc'. apply Hd. right. exact Hc'.
    + reflexivity.
Qed.

Lemma list_ends {A : Type} (d : A) (l : list A) :
  l <> [] ->
  l = [hd d l] \/ exists mid, l = hd d l :: mid ++ [last l d].
Proof.
  intros Hl. destruct l as [| x l]; [contradiction |].
  destruct l as [| y l]; [left; reflexivity |]. right.
  exists (removelast (y :: l)). cbn [hd]. f_equal.
  change (last (x :: y :: l) d) with (last (y :: l) d).
  apply app_removelast_last. discriminate.
Qed.

Lemma shift_loop_region pad k f a g b out :
  g <> [] ->
  date_char (hd " "%char g) = false -> date_char (last g " "%char) = false ->
  findall date_pattern g = [] ->
  forall dates,
    (forall c, In c dates -> In c (findall date_pattern (a ++ g ++ b))) ->
    snd (shift_loop pad dates k f (a ++ g ++ b)) = Ok out ->
    exists a' b',
      out = a' ++ g ++ b'
      /\ snd (shift_loop pad dates k f a) = Ok a'
      /\ snd (shift_loop pad dates k f b) = Ok b'.
Proof.
  intros Hg Hx Hz Hn dates Hd H.
  assert (Hc : forall c, In c dates -> forallb date_char c = true /\ c <> [])
    by (intros c Hc; apply (findall_date_chars (a ++ g ++ b)), Hd, Hc).
  assert (Hone : forall x, date_char x = false ->
                   forall y, In y [x] -> date_char y = false)
    by (intros x Hx' y [<- | []]; exact Hx').
  destruct (list_ends " "%char g Hg) as [Hs | [mid Hs]].
  - rewrite Hs in H |- *.
    destruct (shift_loop_frame pad k f [hd " "%char g] ltac:(discriminate)
                (Hone _ Hx) dates Hc a b out H) as (a' & b' & Ha & Hb & Ho).
    exists a', b'. auto.
  - rewrite Hs in H |- *.
    change (hd " "%char g :: mid ++ [last g " "%char])
      with ([hd " "%char g] ++ mid ++ [last g " "%char]) in H |- *.
    rewrite <- !app_assoc in H.
    destruct (shift_loop_frame pad k f [hd " "%char g] ltac:(discriminate)
                (Hone _ Hx) dates Hc a _ out H) as (a' & r & Ha & Hr & Ho).
    destruct (shift_loop_frame pad k f [last g " "%char] ltac:(discriminate)
                (Hone _ Hz) dates Hc mid b r Hr)
      as (mid' & b' & Hm & Hb & Ho').
    assert (mid' = mid) as ->.
    { apply (shift_loop_absent pad k f mid dates mid'); [| exact Hm].
      intros c Hin. split; [apply Hc, Hin |].
      pose proof (candidate_not_in_region _ g c (Hd c Hin) Hn) as Hocc.
      destruct (occurs c mid) eqn:E; [| reflexivity].
      rewrite Hs in Hocc.
      change (hd " "%char g :: mid ++ [last g " "%char])
        with ([hd " "%char g] ++ mid ++ [last g " "%char]) in Hocc.
      rewrite (occurs_app c _ _ (occurs_extend c mid _ E)) in Hocc.
      discriminate. }
    exists a', b'. subst out r. rewrite <- !app_assoc. auto.
Qed.

(** The regions between the candidates are such regions. *)

Lemma search_none_prefix pat v w :
  search pat (v ++ w) = None -> search pat v = None.
Proof.
  induction pat as [| a pat IH]; [reflexivity |]. cbn [search].
  destruct (match_classes a v) eqn:E.
  - rewrite (match_classes_app a v w E). discriminate.
  - destruct (match_classes a (v ++ w)); [discriminate | exact IH].
Qed.

Lemma findall_nil_intro pat s :
  (forall u v, s = u ++ v -> v <> [] -> search pat v = None) ->
  findall pat s = [].
Proof.
  unfold findall. induction s as [| c s IH]; intros H; [reflexivity |].
  cbn [findall_from].
  rewrite (H [] (c :: s) eq_refl ltac:(discriminate)).
  apply IH. intros u v Hs Hv. apply (H (c :: u) v); [| exact Hv].
  rewrite Hs. reflexivity.
Qed.

Lemma gaps_from_free pat :
  forall s skip g0 gs,
    gaps_from pat skip s = g0 :: gs ->
    (exists w, skipn skip s = g0 ++ w)
    /\ forall g, In g (g0 :: gs) ->
         forall u v, g = u ++ v -> v <> [] -> search pat v = None.
Proof.
  induction s as [| c s IH]; intros skip g0 gs Hg.
  - cbn in Hg. injection Hg as <- <-. split.
    + exists []. destruct skip; reflexivity.
    + intros g [<- | []] u v Huv Hv.
      destruct u; destruct v; try discriminate. contradiction.
  - cbn [gaps_from] in Hg. destruct skip as [| k].
    + destruct (search pat (c :: s)) as [n |] eqn:E.
      * injection Hg as <- Hg.
        destruct (gaps_from_cons pat (n - 1) s) as (g1 & gs1 & Hg1).
        rewrite Hg1 in Hg. subst gs.
        destruct (IH _ _ _ Hg1) as [_ Hfree]. split.
        -- exists (c :: s). reflexivity.
        -- intros g [<- | Hin] u v Huv Hv.
           ++ destruct u; destruct v; try discriminate. contradiction.
           ++ exact (Hfree g Hin u v Huv Hv).
      * destruct (gaps_from_cons pat 0 s) as (g1 & gs1 & Hg1).
        rewrite Hg1 in Hg. injection Hg as <- <-.
        destruct (IH _ _ _ Hg1) as [[w Hw] Hfree]. cbn [skipn] in *. split.
        -- exists w. rewrite Hw. reflexivity.
        -- intros g [<- | Hin] u v Huv Hv.
           ++ destruct u as [| x u].
              ** cbn [app] in Huv. subst v.
                 apply (search_none_prefix pat (c :: g1) w).
                 cbn [app]. rewrite <- Hw. exact E.
              ** cbn [app] in Huv. injection Huv as _ Huv.
                 exact (Hfree g1 (or_introl eq_refl) u v Huv Hv).
           ++ exact (Hfree g (or_intror Hin) u v Huv Hv).
    + destruct (IH _ _ _ Hg) as [Hw Hfree]. split; [exact Hw | exact Hfree].
Qed.

Lemma gaps_findall_nil pat s g :
  In g (gaps pat s) -> findall pat g = [].
Proof.
  intros Hin. unfold gaps in Hin.
  destruct (gaps_from_cons pat 0 s) as (g0 & gs & Hg).
  rewrite Hg in Hin. destruct (gaps_from_free pat s 0 g0 gs Hg) as [_ H].
  apply findall_nil_intro. exact (H g Hin).
Qed.

Lemma shift_loop_returns pad k f dates :
  forall s s', snd (shift_loop pad dates k f s) = Ok s' ->
  forall t, exists t', snd (shift_loop pad dates k f t) = Ok t'.
Proof.
  induction dates as [| c dates IH]; intros s s' H t.
  - exists t. reflexivity.
  - cbn [shift_loop] in *.
    destruct (shift_date pad c k f) as [w [shifted | e]]; [| discriminate].
    destruct (shift_loop pad dates k f (replace s c shifted))
      as [w1 r1] eqn:E1.
    cbn [snd] in H. subst r1.
    destruct (IH (replace s c shifted) s') with (t := replace t c shifted)
      as [t' Ht']; [rewrite E1; reflexivity |].
    exists t'.
    destruct (shift_loop pad dates k f (replace t c shifted)) as [w2 r2].
    exact Ht'.
Qed.

Lemma occurs_nil c : c <> [] -> occurs c [] = false.
Proof. destruct c; [contradiction | reflexivity]. Qed.

(** The region [g], in which the scanner finds nothing, is kept when each
    of its ends is either an end of the text or a character that is
    neither a digit nor a separator. *)
Lemma shift_loop_kept pad k f a g b out :
  g <> [] ->
  findall date_pattern g = [] ->
  a = [] \/ date_char (hd " "%char g) = false ->
  b = [] \/ date_char (last g " "%char) = false ->
  forall dates,
    (forall c, In c dates -> In c (findall date_pattern (a ++ g ++ b))) ->
    snd (shift_loop pad dates k f (a ++ g ++ b)) = Ok out ->
    exists a' b',
      out = a' ++ g ++ b'
      /\ snd (shift_loop pad dates k f a) = Ok a'
      /\ snd (shift_loop pad dates k f b) = Ok b'.
Proof.
  intros Hg Hn Hleft Hright dates Hd H.
  assert (Hc : forall c, In c dates -> forallb date_char c = true /\ c <> [])
    by (intros c Hc; apply (findall_date_chars (a ++ g ++ b)), Hd, Hc).
  assert (Hfree : forall u v w, g = u ++ v ++ w ->
            forall c, In c dates -> c <> [] /\ occurs c v = false).
  { intros u v w Hs c Hin. split; [apply Hc, Hin |].
    pose proof (candidate_not_in_region _ g c (Hd c Hin) Hn) as Hocc.
    destruct (occurs c v) eqn:E; [| reflexivity].
    rewrite Hs, (occurs_app c u _ (occurs_extend c v w E)) in Hocc.
    discriminate. }
  assert (Hnil : forall t, snd (shift_loop pad dates k f []) = Ok t -> t = []).
  { intros t. apply shift_loop_absent. intros c Hin.
    split; [apply Hc, Hin | apply occurs_nil, Hc, Hin]. }
  destruct (shift_loop_returns pad k f dates _ _ H []) as [e He].
  pose proof (Hnil e He) as ->.
  assert (Hone : forall x, date_char x = false ->
                   forall y, In y [x] -> date_char y = false)
    by (intros x Hx' y [<- | []]; exact Hx').
  destruct Hleft as [-> | Hx]; destruct Hright as [-> | Hz].
  - rewrite app_nil_r in H. cbn [app] in H.
    exists [], []. rewrite app_nil_r. cbn [app].
    repeat split; try exact He.
    apply (shift_loop_absent pad k f g dates out); [| exact H].
    apply (Hfree [] g []). rewrite app_nil_r. reflexivity.
  - cbn [app] in H.
    rewrite (app_removelast_last " "%char Hg), <- app_assoc in H.
    destruct (shift_loop_frame pad k f [last g " "%char] ltac:(discriminate)
                (Hone _ Hz) dates Hc (removelast g) b out H)
      as (mid' & b' & Hm & Hb & Ho).
    assert (mid' = removelast g) as ->.
    { apply (shift_loop_absent pad k f _ dates mid'); [| exact Hm].
      apply (Hfree [] (removelast g) [last g " "%char]).
      cbn [app]. apply app_removelast_last, Hg. }
    exists [], b'. cbn [app]. repeat split; try assumption.
    rewrite Ho, app_assoc, <- (app_removelast_last " "%char Hg).
    reflexivity.
  - rewrite app_nil_r in H.
    destruct g as [| x g1]; [contradiction |]. cbn [hd] in Hx.
    change (a ++ x :: g1) with (a ++ [x] ++ g1) in H.
    destruct (shift_loop_frame pad k f [x] ltac:(discriminate)
                (Hone _ Hx) dates Hc a g1 out H)
      as (a' & r & Ha & Hr & Ho).
    assert (r = g1) as ->.
    { apply (shift_loop_absent pad k f _ dates r); [| exact Hr].
      apply (Hfree [x] g1 []). rewrite app_nil_r. reflexivity. }
    exists a', []. rewrite app_nil_r. repeat split; assumption.
  - apply (shift_loop_region pad k f a g b out Hg Hx Hz Hn dates Hd H).
Qed.

(** ** The claims *)




(** C2.  With a directive that occurs twice in the format, no text parses:
    [strptime] raises [re.error], which is not a [ValueError], so
    [shift_date] does not return [date_str]: the exception leaves it and no
    warning is logged. *)
Theorem shift_date_repeated_directive pad date_str k f :
  has_repeat (directives f) = true ->
  (forall dt, strptime date_str f <> Ok dt)
  /\ shift_date pad date_str k f = ([], Raise ReError)
  /\ snd (shift_date pad date_str k f) <> Ok date_str.
Proof.
  intros Hf.
  assert (strptime date_str f = Raise ReError) as H
    by (unfold strptime, compile; rewrite Hf; reflexivity).
  assert (shift_date pad date_str k f = ([], Raise ReError)) as H'
    by (unfold shift_date, shift_date_try; rewrite H; reflexivity).
  split; [| split].
  - intros dt. rewrite H. discriminate.
  - exact H'.
  - rewrite H'. discriminate.
Qed.

Lemma shift_date_repeated_directive_witness :
  (forall dt,
      strptime (lit "15-01-2023") [Dir Dd; Lit "-"; Dir Dm; Lit "-"; Dir Dd]
      <> Ok dt)
  /\ shift_date false (lit "15-01-2023") 1
       [Dir Dd; Lit "-"; Dir Dm; Lit "-"; Dir Dd]
     = ([], Raise ReError)
  /\ snd (shift_date false (lit "15-01-2023") 1
            [Dir Dd; Lit "-"; Dir Dm; Lit "-"; Dir Dd])
     <> Ok (lit "15-01-2023").
Proof.
  apply (shift_date_repeated_directive false (lit "15-01-2023") 1
           [Dir Dd; Lit "-"; Dir Dm; Lit "-"; Dir Dd]).
  reflexivity.
Defined.

(** C3.  The transformer is the fold over the scanned candidates, in scan
    order and with duplicates: each step shifts the candidate and replaces
    it in the whole of the current text.  The replacement is global: the
    result of [replace] is the text with every occurrence of the candidate,
    taken from the left, replaced.  An exception of the shifter ends the
    fold. *)
Theorem transform_is_fold pad content k f :
  transform pad content k f = transform_fold pad content k f
  /\ (forall current candidate shifted,
         candidate <> [] ->
         replaced_all candidate shifted current
                      (replace current candidate shifted))
  /\ findall date_pattern (lit "2023-01-15, 2023-01-15")
     = [lit "2023-01-15"; lit "2023-01-15"].
Proof.
  split; [| split].
  - unfold transform, transform_fold. rewrite shift_loop_fold.
    destruct (shift_loop pad _ k f content); reflexivity.
  - intros current candidate shifted Hc.
    apply replace_replaced_all, Hc.
  - vm_compute. reflexivity.
Qed.

(** C4.  The scanner finds exactly the four candidates of the example, in
    this order.  They do not overlap: the text is the candidates with the
    text between them, in which nothing is found; where two shapes match
    at one position the first one wins ([31-12-2023] is taken by the second
    shape, not cut to [31-12-20] by the third). *)
Theorem findall_example :
  findall date_pattern
    (lit "start 2023-12-31 mid 31/12/99 end 31-12-2023 tail 2023-13-40 done")
  = [lit "2023-12-31"; lit "31/12/99"; lit "31-12-2023"; lit "2023-13-40"]
  /\ lit "start 2023-12-31 mid 31/12/99 end 31-12-2023 tail 2023-13-40 done"
     = lit "start " ++ lit "2023-12-31" ++ lit " mid " ++ lit "31/12/99"
       ++ lit " end " ++ lit "31-12-2023" ++ lit " tail " ++ lit "2023-13-40"
       ++ lit " done"
  /\ map (findall date_pattern)
         [lit "start "; lit " mid "; lit " end "; lit " tail "; lit " done"]
     = [[]; []; []; []; []]
  /\ search date_pattern (lit "31-12-2023 tail") = Some 10%nat
  /\ match_classes (nth 2 date_pattern []) (lit "31-12-2023 tail") = true.
Proof. repeat split; vm_compute; reflexivity. Qed.

(** C5.  For a string [s] that strictly parses under [f] to the date [dt], a
    shift by zero days returns the rendering of [dt] in [f]: the text is
    put into the format's canonical form and the date is the one parsed. *)
Theorem shift_date_zero pad s f dt :
  strptime s f = Ok dt ->
  shift_date pad s 0 f = ([], Ok (strftime pad dt f))
  /\ date_add dt 0 = Ok dt.
Proof.
  intros Hp. destruct (strptime_ok s f dt Hp) as [Hc Hr].
  destruct (date_add_days_from dt 0 Hc Hr) as [Ht Ha].
  { rewrite days_from_zero. exact Hr. }
  rewrite days_from_zero in Ha. split; [| exact Ha].
  unfold shift_date, shift_date_try. rewrite Hp. cbn [bind].
  rewrite Ht. cbn [bind]. rewrite Ha. reflexivity.
Qed.

Lemma shift_date_zero_witness :
  shift_date false (lit "5-1-99") 0 [Dir Dd; Lit "-"; Dir Dm; Lit "-"; Dir Dy]
  = ([], Ok (lit "05-01-99"))
  /\ date_add (mkdate 1999 1 5) 0 = Ok (mkdate 1999 1 5).
Proof.
  apply (shift_date_zero false (lit "5-1-99")
           [Dir Dd; Lit "-"; Dir Dm; Lit "-"; Dir Dy] (mkdate 1999 1 5)).
  reflexivity.
Defined.

(** The claim of C6 at an explicit input: between the two candidates of
    [99-12-13-14 12-13-14] lies the region [-14 ], which is not part of a
    candidate; with the format [%m-%d-%y] and an offset of 365 days the
    second candidate [12-13-14] becomes [12-13-15], and the replacement
    also reaches its occurrence that straddles the first candidate and the
    region: the region does not occur in the output any more. *)
Lemma transform_frame_broken :
  findall date_pattern (lit "99-12-13-14 12-13-14")
  = [lit "99-12-13"; lit "12-13-14"]
  /\ gaps date_pattern (lit "99-12-13-14 12-13-14")
     = [lit ""; lit "-14 "; lit ""]
  /\ snd (transform false (lit "99-12-13-14 12-13-14") 365
            [Dir Dm; Lit "-"; Dir Dd; Lit "-"; Dir Dy])
     = Ok (lit "99-12-13-15 12-13-15")
  /\ occurs (lit "-14 ") (lit "99-12-13-15 12-13-15") = false
  /\ ~ (forall out g,
          snd (transform false (lit "99-12-13-14 12-13-14") 365
                 [Dir Dm; Lit "-"; Dir Dd; Lit "-"; Dir Dy]) = Ok out ->
          In g (gaps date_pattern (lit "99-12-13-14 12-13-14")) ->
          occurs g out = true).
Proof.
  repeat split; try (vm_compute; reflexivity).
  intros H.
  specialize (H (lit "99-12-13-15 12-13-15") (lit "-14 ")).
  assert (occurs (lit "-14 ") (lit "99-12-13-15 12-13-15") = true) as Ht.
  { apply H; [vm_compute; reflexivity |].
    right. left. reflexivity. }
  vm_compute in Ht. discriminate.
Qed.

(** C6, as amended.  A region [g] of the content in which the scanner
    finds no candidate stays as it is and where it is, provided that each
    of its two ends is an end of the content or a character that is neither
    a digit nor a separator: when the transformer returns on [a ++ g ++ b],
    its result is [a' ++ g ++ b'], where [a'] and [b'] are what the same
    replacements, those of the candidates of the whole content, make of [a]
    and of [b]. *)
Theorem transform_frame pad a g b k f out :
  g <> [] ->
  findall date_pattern g = [] ->
  a = [] \/ date_char (hd " "%char g) = false ->
  b = [] \/ date_char (last g " "%char) = false ->
  snd (transform pad (a ++ g ++ b) k f) = Ok out ->
  exists a' b',
    out = a' ++ g ++ b'
    /\ snd (shift_loop pad (findall date_pattern (a ++ g ++ b)) k f a)
       = Ok a'
    /\ snd (shift_loop pad (findall date_pattern (a ++ g ++ b)) k f b)
       = Ok b'.
Proof.
  intros Hg Hn Hleft Hright H. unfold transform in H.
  apply (shift_loop_kept pad k f a g b out Hg Hn Hleft Hright
           (findall date_pattern (a ++ g ++ b))); [| exact H].
  intros c Hc. exact Hc.
Qed.

Lemma transform_frame_witness :
  exists a' b',
    lit "2 items (ref 12/5, 3-4) by 2024-02-29."
    = a' ++ lit "2 items (ref 12/5, 3-4) by " ++ b'
    /\ snd (shift_loop false
              (findall date_pattern
                 (lit "" ++ lit "2 items (ref 12/5, 3-4) by "
                  ++ lit "2024-02-28."))
              1 default_format (lit ""))
       = Ok a'
    /\ snd (shift_loop false
              (findall date_pattern
                 (lit "" ++ lit "2 items (ref 12/5, 3-4) by "
                  ++ lit "2024-02-28."))
              1 default_format (lit "2024-02-28."))
       = Ok b'.
Proof.
  apply (transform_frame false (lit "")
           (lit "2 items (ref 12/5, 3-4) by ") (lit "2024-02-28.") 1
           default_format (lit "2 items (ref 12/5, 3-4) by 2024-02-29.")).
  - discriminate.
  - vm_compute. reflexivity.
  - left. reflexivity.
  - right. reflexivity.
  - vm_compute. reflexivity.
Defined.

(** C7.  Cascading replacements: in [2023-01-15 2023-01-25] with an offset
    of ten days, the first candidate is rewritten to the text of the second
    one; the replacement made for the second candidate then rewrites both
    places, and the first date ends up twenty days later instead of ten. *)
Theorem transform_cascade pad :
  exists content k f c1 c2 out,
    findall date_pattern content = [c1; c2]
    /\ c1 <> c2
    /\ snd (shift_date pad c1 k f) = Ok c2
    /\ replace content c1 c2 = c2 ++ lit " " ++ c2
    /\ snd (transform pad content k f) = Ok out
    /\ out = strftime pad (days_from (mkdate 2023 1 15) (2 * k)) f
             ++ lit " "
             ++ strftime pad (days_from (mkdate 2023 1 25) k) f
    /\ strptime c1 f = Ok (mkdate 2023 1 15)
    /\ strptime c2 f = Ok (mkdate 2023 1 25)
    /\ k <> 0.
Proof.
  exists (lit "2023-01-15 2023-01-25"), 10, default_format,
    (lit "2023-01-15"), (lit "2023-01-25"), (lit "2023-02-04 2023-02-04").
  destruct pad; repeat split; try (vm_compute; reflexivity);
    vm_compute; discriminate.
Qed.

(** C8.  The end-to-end example: with the default format [%Y-%m-%d] and an
    offset of ten days both dates move by ten days and the rest of the text
    stays; this is the text [process_file] writes for a file that reads so,
    where reading and writing succeed. *)
Theorem transform_meeting_example pad :
  parse_format (lit "%Y-%m-%d") = Some default_format
  /\ transform pad (lit "Meeting on 2023-01-15 and follow-up 2023-01-20.")
       10 default_format
     = ([], Ok (lit "Meeting on 2023-01-25 and follow-up 2023-01-30."))
  /\ (forall file_path output_path encoding,
        snd (process_file pad file_path 10 output_path default_format
               (mkio (fun _ => Ok (Some encoding))
                     (fun _ _ =>
                        Ok (lit "Meeting on 2023-01-15 and follow-up 2023-01-20."))
                     (fun _ _ _ => Ok tt)))
        = Some (output_file_path output_path file_path,
                lit "Meeting on 2023-01-25 and follow-up 2023-01-30.")).
Proof.
  assert (transform pad
            (lit "Meeting on 2023-01-15 and follow-up 2023-01-20.")
            10 default_format
          = ([], Ok (lit "Meeting on 2023-01-25 and follow-up 2023-01-30.")))
    as H by (destruct pad; vm_compute; reflexivity).
  split; [reflexivity |]. split; [exact H |].
  intros file_path output_path encoding.
  unfold process_file. cbn [io_detect io_read io_write].
  change (universal_newlines
            (lit "Meeting on 2023-01-15 and follow-up 2023-01-20."))
    with (lit "Meeting on 2023-01-15 and follow-up 2023-01-20.").
  rewrite H. reflexivity.
Qed.

(** C9.  [9999-12-31] parses under the default format, and with an offset
    of one day the addition raises [OverflowError], which [shift_date] does
    not catch: the exception leaves [shift_date], the date is not returned
    unchanged, and [process_file] writes no output for a file that contains
    the date.  Whenever the transformation raises, nothing is written,
    whatever the file system answers. *)
Theorem shift_date_overflow pad :
  strptime (lit "9999-12-31") default_format = Ok (mkdate 9999 12 31)
  /\ shift_date pad (lit "9999-12-31") 1 default_format
     = ([], Raise OverflowError)
  /\ (forall file_path output_path io encoding,
        io_detect io file_path = Ok (Some encoding) ->
        io_read io file_path encoding
        = Ok (lit "due 9999-12-31, paid 2023-01-15") ->
        process_file pad file_path 1 output_path default_format io
        = ([Error_processing OverflowError], None))
  /\ (forall file_path output_path io k f,
        (forall encoding decoded,
            io_read io file_path encoding = Ok decoded ->
            exists e,
              snd (transform pad (universal_newlines decoded) k f) = Raise e) ->
        snd (process_file pad file_path k output_path f io) = None).
Proof.
  split; [vm_compute; reflexivity |].
  split; [destruct pad; vm_compute; reflexivity |].
  split.
  - intros file_path output_path io encoding Hd Hr.
    unfold process_file. rewrite Hd, Hr.
    change (universal_newlines (lit "due 9999-12-31, paid 2023-01-15"))
      with (lit "due 9999-12-31, paid 2023-01-15").
    assert (transform pad (lit "due 9999-12-31, paid 2023-01-15") 1
              default_format = ([], Raise OverflowError)) as ->
      by (destruct pad; vm_compute; reflexivity).
    reflexivity.
  - intros file_path output_path io k f H. unfold process_file.
    destruct (io_detect io file_path) as [[encoding |] | e];
      try reflexivity.
    destruct (io_read io file_path encoding) as [decoded | e] eqn:Er;
      [| reflexivity].
    destruct (H encoding decoded Er) as [e He].
    destruct (transform pad (universal_newlines decoded) k f)
      as [w [out | e']]; cbn [snd] in *; [discriminate | reflexivity].
Qed.

(** C10.  No boundary is required around a match: in [12023-12-310] the
    scanner finds [2023-12-31] inside the longer run of digits and the
    transformer rewrites it in place. *)
Theorem transform_embedded pad :
  findall date_pattern (lit "12023-12-310") = [lit "2023-12-31"]
  /\ transform pad (lit "12023-12-310") 1 default_format
     = ([], Ok (lit "12024-01-010")).
Proof. destruct pad; split; vm_compute; reflexivity. Qed.

(** ** Beyond the claims: what [shift_date] does in every case *)

Lemma toordinal_in_year dt :
  calendar_date dt ->
  days_before_year (year dt) < toordinal dt
  <= days_before_year (year dt + 1).
Proof.
  destruct dt as [y m d]. unfold calendar_date, toordinal, ymd2ord.
  cbn [year month day]. intros [Hm Hd].
  rewrite days_before_year_succ. unfold days_before_month.
  destruct (is_leap y) eqn:L; each_month Hm; tables; rewrite ?L in *; lia.
Qed.

Lemma toordinal_representable dt :
  calendar_date dt -> 0 < toordinal dt <= MAXORDINAL -> representable dt.
Proof.
  intros Hc Ho. pose proof (toordinal_in_year dt Hc) as Hy.
  unfold representable, MINYEAR, MAXYEAR, MAXORDINAL in *.
  destruct (Z_le_gt_dec (year dt) 0) as [Hlo | Hlo].
  - pose proof (days_before_year_mono (year dt + 1) 1 ltac:(lia)) as H.
    change (days_before_year 1) with 0 in H. lia.
  - destruct (Z_le_gt_dec (year dt) 9999) as [Hhi | Hhi]; [lia |].
    pose proof (days_before_year_mono 10000 (year dt) ltac:(lia)) as H.
    change (days_before_year 10000) with 3652059 in H. lia.
Qed.

Lemma representable_dec dt : {representable dt} + {~ representable dt}.
Proof.
  unfold representable.
  destruct (Z_le_dec MINYEAR (year dt)); destruct (Z_le_dec (year dt) MAXYEAR);
    (left; lia) || (right; lia).
Qed.

Lemma date_add_out_of_range dt k :
  calendar_date dt -> ~ representable (days_from dt k) ->
  (delta <- timedelta k ;; date_add dt delta) = Raise OverflowError.
Proof.
  intros Hc Hn. unfold timedelta.
  destruct (Z.abs k <=? 999999999); [| reflexivity]. cbn [bind].
  unfold date_add.
  destruct ((0 <? toordinal dt + k) && (toordinal dt + k <=? MAXORDINAL))
    eqn:E; [| reflexivity].
  exfalso. apply Hn.
  destruct (days_from_ordinal dt k Hc) as [Hc' Ho].
  apply toordinal_representable; [exact Hc' |].
  apply andb_true_iff in E. rewrite Z.ltb_lt, Z.leb_le in E. lia.
Qed.

Lemma shift_date_parsed pad s k f dt :
  strptime s f = Ok dt ->
  (representable (days_from dt k) ->
   shift_date pad s k f = ([], Ok (strftime pad (days_from dt k) f)))
  /\ (~ representable (days_from dt k) ->
      shift_date pad s k f = ([], Raise OverflowError)).
Proof.
  intros Hp. destruct (strptime_ok s f dt Hp) as [Hc Hr]. split.
  - intros Hr'. unfold shift_date, shift_date_try. rewrite Hp. cbn [bind].
    destruct (date_add_days_from dt k Hc Hr Hr') as [Ht Ha].
    rewrite Ht. cbn [bind]. rewrite Ha. reflexivity.
  - intros Hn. pose proof (date_add_out_of_range dt k Hc Hn) as H.
    unfold shift_date, shift_date_try. rewrite Hp. cbn [bind].
    destruct (timedelta k) as [delta | e]; cbn [bind] in *.
    + rewrite H. reflexivity.
    + injection H as ->. reflexivity.
Qed.

Lemma strptime_cases s f :
  (exists dt, strptime s f = Ok dt)
  \/ strptime s f = Raise ValueError
  \/ (strptime s f = Raise ReError /\ has_repeat (directives f) = true).
Proof.
  destruct (has_repeat (directives f)) eqn:Hf.
  - right. right. split; [| reflexivity].
    unfold strptime, compile. rewrite Hf. reflexivity.
  - destruct (strptime_outcomes s f Hf) as [H | H]; auto.
Qed.


(** ** Shifting twice *)

Lemma toordinal_injective a b :
  calendar_date a -> calendar_date b -> toordinal a = toordinal b -> a = b.
Proof.
  intros Ha Hb H. rewrite <- (fromordinal_toordinal a Ha).
  rewrite <- (fromordinal_toordinal b Hb). rewrite H. reflexivity.
Qed.

Lemma days_from_add dt k1 k2 :
  calendar_date dt ->
  days_from (days_from dt k1) k2 = days_from dt (k1 + k2).
Proof.
  intros Hc.
  destruct (days_from_ordinal dt k1 Hc) as [Hc1 Ho1].
  destruct (days_from_ordinal _ k2 Hc1) as [Hc2 Ho2].
  destruct (days_from_ordinal dt (k1 + k2) Hc) as [Hc3 Ho3].
  apply toordinal_injective; [assumption | assumption | lia].
Qed.

(** X2.  Shifts add up and can be undone.  In a format in which [%Y],
    [%m] and [%d] occur once each and [%y] does not occur, shifting the
    rendering of a date by [k1] days and the result by [k2] days gives the
    rendering of the date [k1 + k2] days away, and shifting the result by
    [- k1] days gives the first text back, as long as the dates stay in
    range (and their years have four digits where [%Y] is not filled with
    zeros). *)
Theorem shift_date_twice pad dt k1 k2 f :
  full_format f = true ->
  calendar_date dt -> representable dt ->
  representable (days_from dt k1) ->
  representable (days_from dt (k1 + k2)) ->
  pad = true \/ (1000 <= year dt /\ 1000 <= year (days_from dt k1)) ->
  exists t,
    shift_date pad (strftime pad dt f) k1 f = ([], Ok t)
    /\ shift_date pad t k2 f
       = ([], Ok (strftime pad (days_from dt (k1 + k2)) f))
    /\ shift_date pad t (- k1) f = ([], Ok (strftime pad dt f)).
Proof.
  intros Hf Hc Hr Hr1 Hr2 Hp.
  destruct (days_from_ordinal dt k1 Hc) as [Hc1 _].
  assert (He : reads_back pad dt f)
    by (apply full_format_reads_back; tauto).
  assert (He1 : reads_back pad (days_from dt k1) f)
    by (apply full_format_reads_back; tauto).
  assert (Hnext : forall k, representable (days_from dt (k1 + k)) ->
            shift_date pad (strftime pad (days_from dt k1) f) k f
            = ([], Ok (strftime pad (days_from dt (k1 + k)) f))).
  { intros k Hk. destruct (shift_date_parsed pad _ k f _ He1) as [Hin _].
    rewrite Hin by (rewrite days_from_add; assumption).
    rewrite days_from_add by assumption. reflexivity. }
  exists (strftime pad (days_from dt k1) f). split; [| split].
  - destruct (shift_date_parsed pad _ k1 f _ He) as [Hin _]. exact (Hin Hr1).
  - exact (Hnext k2 Hr2).
  - rewrite Hnext; replace (k1 + - k1) with 0 by lia;
      rewrite days_from_zero; [reflexivity | exact Hr].
Qed.

Lemma shift_date_twice_witness :
  exists t,
    shift_date false (lit "2024-02-28") 2 default_format = ([], Ok t)
    /\ shift_date false t 365 default_format = ([], Ok (lit "2025-03-01"))
    /\ shift_date false t (- 2) default_format
       = ([], Ok (lit "2024-02-28")).
Proof.
  apply (shift_date_twice false (mkdate 2024 2 28) 2 365 default_format).
  - reflexivity.
  - unfold calendar_date; cbn [year month day];
      repeat split; apply Z.leb_le; reflexivity.
  - unfold representable; cbn [year]; split; apply Z.leb_le; reflexivity.
  - unfold representable; split; apply Z.leb_le; vm_compute; reflexivity.
  - unfold representable; split; apply Z.leb_le; vm_compute; reflexivity.
  - right. split; apply Z.leb_le; vm_compute; reflexivity.
Defined.

(** X3.  A shift that is not zero changes the text.  In a format in which
    [%Y], [%m] and [%d] occur once each and [%y] does not occur, the text
    returned for a text that parses and an offset other than zero differs
    from that text, when the shifted date is in range (its year having four
    digits where [%Y] is not filled with zeros). *)
Theorem shift_date_changes pad s k f dt :
  full_format f = true ->
  strptime s f = Ok dt ->
  k <> 0 ->
  representable (days_from dt k) ->
  pad = true \/ 1000 <= year (days_from dt k) ->
  exists t, shift_date pad s k f = ([], Ok t) /\ t <> s.
Proof.
  intros Hf Hs Hk Hr Hp.
  destruct (strptime_ok s f dt Hs) as [Hc _].
  destruct (days_from_ordinal dt k Hc) as [Hc' Ho].
  destruct (shift_date_parsed pad s k f dt Hs) as [Hin _].
  exists (strftime pad (days_from dt k) f). split; [exact (Hin Hr) |].
  intros E.
  pose proof (full_format_reads_back pad _ f Hc' Hr Hp Hf) as He.
  unfold reads_back in He. rewrite E, Hs in He. injection He as He.
  rewrite <- He in Ho. lia.
Qed.

Lemma shift_date_changes_witness :
  exists t,
    shift_date false (lit "31/12/1999") 1
      [Dir Dd; Lit "/"; Dir Dm; Lit "/"; Dir DY] = ([], Ok t)
    /\ t <> lit "31/12/1999".
Proof.
  apply (shift_date_changes false (lit "31/12/1999") 1
           [Dir Dd; Lit "/"; Dir Dm; Lit "/"; Dir DY] (mkdate 1999 12 31)).
  - reflexivity.
  - reflexivity.
  - discriminate.
  - unfold representable; split; apply Z.leb_le; vm_compute; reflexivity.
  - right. apply Z.leb_le. vm_compute. reflexivity.
Defined.

(** ** Content that stays as it is *)

Lemma search_needs_digit s :
  match s with
  | c :: _ => is_digit c = false
  | [] => True
  end ->
  search date_pattern s = None.
Proof.
  destruct s as [| c s]; [reflexivity |]. intros H.
  cbn [search date_pattern match_classes]. rewrite H. reflexivity.
Qed.

Lemma findall_no_digit s :
  (forall c, In c s -> is_digit c = false) -> findall date_pattern s = [].
Proof.
  intros H. apply findall_nil_intro. intros u v Hs Hv.
  apply search_needs_digit. destruct v as [| c v]; [exact I |].
  apply H. rewrite Hs. apply in_or_app. right. left. reflexivity.
Qed.

Lemma universal_newlines_in s :
  forall c, In c (universal_newlines s) -> In c s \/ c = "010"%char.
Proof.
  assert (forall n s, (length s <= n)%nat ->
            forall c, In c (universal_newlines s) ->
                      In c s \/ c = "010"%char) as H.
  { induction n as [| n IH]; intros t Hn c Hc.
    - destruct t; [contradiction | cbn in Hn; lia].
    - destruct t as [| x t]; [contradiction |].
      cbn [length] in Hn. cbn [universal_newlines] in Hc.
      destruct (Ascii.eqb x "013").
      + destruct Hc as [<- | Hc]; [right; reflexivity |].
        destruct t as [| y t]; [contradiction |]. cbn [length] in Hn.
        destruct (Ascii.eqb y "010").
        * destruct (IH t ltac:(lia) c Hc) as [H | H]; [| right; exact H].
          left. right. right. exact H.
        * destruct (IH (y :: t) ltac:(cbn [length]; lia) c Hc) as [H | H];
            [left; right; exact H | right; exact H].
      + destruct Hc as [<- | Hc]; [left; left; reflexivity |].
        destruct (IH t ltac:(lia) c Hc) as [H | H];
          [left; right; exact H | right; exact H]. }
  apply (H (length s)). lia.
Qed.

(** Text without a carriage return is read as it is. *)
Lemma universal_newlines_plain s :
  (forall c, In c s -> c <> "013"%char) -> universal_newlines s = s.
Proof.
  induction s as [| x s IH]; intros H; [reflexivity |].
  cbn [universal_newlines].
  destruct (Ascii.eqb x "013") eqn:E.
  - apply Ascii.eqb_eq in E. exfalso. apply (H x); [left; reflexivity | exact E].
  - rewrite IH; [reflexivity |]. intros c Hc. apply H. right. exact Hc.
Qed.

(** When [process_file] has written, the encoding was detected, the file
    read, the transformation returned, the write was made at the output
    path with the text transformed and succeeded, and the info record is
    the last record logged. *)
Lemma process_file_written pad file_path k output_path f io p out :
  snd (process_file pad file_path k output_path f io) = Some (p, out) ->
  exists encoding decoded w,
    io_detect io file_path = Ok (Some encoding)
    /\ io_read io file_path encoding = Ok decoded
    /\ transform pad (universal_newlines decoded) k f = (w, Ok out)
    /\ p = output_file_path output_path file_path
    /\ io_write io p encoding out = Ok tt
    /\ fst (process_file pad file_path k output_path f io)
       = w ++ [Info_processed].
Proof.
  unfold process_file.
  destruct (io_detect io file_path) as [[encoding |] | e] eqn:Ed;
    try discriminate.
  destruct (io_read io file_path encoding) as [decoded | e] eqn:Er;
    [| discriminate].
  destruct (transform pad (universal_newlines decoded) k f)
    as [w [out' | e]] eqn:Et; [| discriminate].
  destruct (io_write io (output_file_path output_path file_path) encoding
              out') as [[] | e] eqn:Ew; [| discriminate].
  cbn [fst snd]. intros [= <- <-].
  exists encoding, decoded, w. repeat split; assumption.
Qed.

(** X4.  A file that is read and has no digit in its text is written with
    the text read, for every offset and every format: the shifter is never
    called, so neither an offset out of range nor a format that cannot be
    compiled matters.  When the write succeeds only the info record is
    logged; when it raises, only its error, and nothing is written.  The
    text read is the decoded text with its line ends [\r\n] and [\r]
    turned into [\n]: the decoded text itself unless it has a carriage
    return. *)
Theorem process_file_no_digit pad file_path k output_path f io encoding
        decoded :
  io_detect io file_path = Ok (Some encoding) ->
  io_read io file_path encoding = Ok decoded ->
  (forall c, In c decoded -> is_digit c = false) ->
  process_file pad file_path k output_path f io
  = match io_write io (output_file_path output_path file_path) encoding
                   (universal_newlines decoded) with
    | Ok _ =>
        ([Info_processed],
         Some (output_file_path output_path file_path,
               universal_newlines decoded))
    | Raise e => ([Error_processing e], None)
    end
  /\ (universal_newlines decoded = decoded \/ In "013"%char decoded).
Proof.
  intros Hd Hr H.
  assert (transform pad (universal_newlines decoded) k f
          = ([], Ok (universal_newlines decoded))) as Ht.
  { unfold transform. rewrite findall_no_digit; [reflexivity |].
    intros c Hc. destruct (universal_newlines_in _ _ Hc) as [Hc' | ->];
      [exact (H c Hc') | reflexivity]. }
  split.
  - unfold process_file. rewrite Hd, Hr, Ht. reflexivity.
  - destruct (in_dec ascii_dec "013"%char decoded) as [Hi | Hn];
      [right; exact Hi | left].
    apply universal_newlines_plain. intros c Hc ->. exact (Hn Hc).
Qed.

Lemma process_file_no_digit_witness :
  process_file false (lit "in/notes.txt") (10 ^ 12) (Some (lit "out"))
    [Dir Dd; Dir Dd]
    (mkio (fun _ => Ok (Some (lit "ascii")))
          (fun _ _ => Ok (lit "no dates / here" ++ ["013"%char; "010"%char]
                          ++ lit "- at all"))
          (fun _ _ _ => Ok tt))
  = ([Info_processed],
     Some (lit "out/notes.txt",
           lit "no dates / here" ++ ["010"%char] ++ lit "- at all"))
  /\ (universal_newlines
        (lit "no dates / here" ++ ["013"%char; "010"%char] ++ lit "- at all")
      = lit "no dates / here" ++ ["013"%char; "010"%char] ++ lit "- at all"
      \/ In "013"%char
            (lit "no dates / here" ++ ["013"%char; "010"%char]
             ++ lit "- at all")).
Proof.
  apply (process_file_no_digit false (lit "in/notes.txt") (10 ^ 12)
           (Some (lit "out")) [Dir Dd; Dir Dd]
           (mkio (fun _ => Ok (Some (lit "ascii")))
                 (fun _ _ =>
                    Ok (lit "no dates / here" ++ ["013"%char; "010"%char]
                        ++ lit "- at all"))
                 (fun _ _ _ => Ok tt))
           (lit "ascii")
           (lit "no dates / here" ++ ["013"%char; "010"%char]
            ++ lit "- at all")).
  - reflexivity.
  - reflexivity.
  - intros c Hc. cbn in Hc.
    repeat (destruct Hc as [<- | Hc]; [reflexivity |]). contradiction.
Defined.

Lemma replace_from_same old :
  old <> [] ->
  forall n s, (length s <= n)%nat -> replace_from old old 0 s = s.
Proof.
  intros Ho. induction n as [| n IH]; intros s Hn.
  - destruct s; [reflexivity | cbn in Hn; lia].
  - destruct s as [| c s]; [reflexivity |].
    destruct (starts_with old (c :: s)) eqn:E.
    + pose proof (starts_with_length _ _ E) as Hl.
      rewrite (starts_with_split _ _ E) at 1 2.
      rewrite replace_from_match by assumption.
      rewrite IH; [reflexivity |]. rewrite length_skipn.
      destruct old; [contradiction | cbn [length] in *; lia].
    + rewrite replace_from_no_match by assumption.
      rewrite IH; [reflexivity | cbn [length] in Hn; lia].
Qed.

Lemma replace_same s old : old <> [] -> replace s old old = s.
Proof.
  intros Ho. destruct old as [| o old]; [contradiction |].
  cbn [replace]. apply (replace_from_same _ Ho (length s)). lia.
Qed.




(** ** The default format and the three shapes *)

Lemma is_sep_not_digit c : is_sep c = true -> is_digit c = false.
Proof.
  unfold is_sep, is_digit. rewrite orb_true_iff, !Z.eqb_eq.
  intros [-> | ->]; reflexivity.
Qed.

Lemma strptime_default_third_sep a b c s :
  is_sep c = true ->
  strptime (a :: b :: c :: s) default_format = Raise ValueError.
Proof.
  intros Hc. unfold strptime. cbn [compile default_format directives
    has_repeat existsb directive_eqb orb pattern is_space bind].
  change (is_space "-") with false. cbn iota.
  cbn [re_match choices group_alternatives filter match_classes].
  rewrite (is_sep_not_digit c Hc), !andb_false_r. reflexivity.
Qed.

(** X6.  With the default format [%Y-%m-%d] only a candidate of the first
    shape, [DDDD-DD-DD], can be shifted: a candidate the scanner finds with
    the second or the third shape ([31/12/1999], [31-12-99]) is returned
    as it is, with a warning, whatever the offset. *)
Theorem shift_date_default_other_shapes pad content c k :
  In c (findall date_pattern content) ->
  match_classes (nth 0 date_pattern []) c = false ->
  shift_date pad c k default_format
  = ([Warning_unparsable c ValueError], Ok c).
Proof.
  intros Hc H1.
  destruct (findall_from_shape _ _ _ _ Hc) as (a & Ha & Hm).
  assert (exists x y z s, c = x :: y :: z :: s /\ is_sep z = true)
    as (x & y & z & s & -> & Hz).
  { unfold date_pattern in Ha.
    destruct Ha as [<- | [<- | [<- | []]]].
    - unfold date_pattern in H1. cbn [nth] in H1.
      rewrite Hm in H1. discriminate.
    - destruct c as [| x [| y [| z s]]];
        cbn [match_classes] in Hm; rewrite ?andb_false_r in Hm;
        try discriminate.
      exists x, y, z, s. split; [reflexivity |].
      rewrite !andb_true_iff in Hm. tauto.
    - destruct c as [| x [| y [| z s]]];
        cbn [match_classes] in Hm; rewrite ?andb_false_r in Hm;
        try discriminate.
      exists x, y, z, s. split; [reflexivity |].
      rewrite !andb_true_iff in Hm. tauto. }
  unfold shift_date, shift_date_try.
  rewrite (strptime_default_third_sep x y z s Hz). reflexivity.
Qed.

Lemma shift_date_default_other_shapes_witness :
  shift_date false (lit "31-12-99") 7 default_format
  = ([Warning_unparsable (lit "31-12-99") ValueError], Ok (lit "31-12-99")).
Proof.
  apply (shift_date_default_other_shapes false (lit "on 31-12-99.")
           (lit "31-12-99") 7).
  - left. reflexivity.
  - reflexivity.
Defined.

(** ** What the scanner yields *)

Lemma search_date_pattern_length s n :
  search date_pattern s = Some n ->
  length (firstn n s) = n /\ (n = 8%nat \/ n = 10%nat).
Proof.
  intros H. destruct (search_matches _ _ _ H) as (a & Ha & -> & Hm).
  destruct (match_classes_firstn date_char a s) as [_ Hl].
  - apply date_pattern_chars, Ha.
  - exact Hm.
  - split; [exact Hl |].
    unfold date_pattern in Ha.
    destruct Ha as [<- | [<- | [<- | []]]]; cbn [length]; auto.
Qed.

Lemma findall_from_lengths s :
  forall skip c,
    In c (findall_from date_pattern skip s) ->
    length c = 8%nat \/ length c = 10%nat.
Proof.
  induction s as [| x s IH]; intros skip c Hc; [contradiction |].
  cbn [findall_from] in Hc. destruct skip as [| k]; [| exact (IH _ _ Hc)].
  destruct (search date_pattern (x :: s)) as [n |] eqn:E;
    [| exact (IH _ _ Hc)].
  destruct Hc as [<- | Hc]; [| exact (IH _ _ Hc)].
  destruct (search_date_pattern_length _ _ E) as [Hl Hn].
  rewrite Hl. exact Hn.
Qed.

Lemma gaps_from_length pat s :
  forall skip,
    length (gaps_from pat skip s) = S (length (findall_from pat skip s)).
Proof.
  induction s as [| c s IH]; intros skip; [reflexivity |].
  cbn [gaps_from findall_from]. destruct skip as [| k]; [| apply IH].
  destruct (search pat (c :: s)).
  - cbn [length]. rewrite IH. reflexivity.
  - specialize (IH 0%nat).
    destruct (gaps_from pat 0 s) as [| g gs]; [discriminate IH |].
    exact IH.
Qed.

(** X7.  The candidates are pieces of the content that do not overlap,
    listed from left to right: the regions between them and the candidates,
    taken in turn, give the content back.  Each candidate is 8 or 10
    characters long and made of digits, [/] and [-] only, and the scanner
    finds nothing in the regions between the candidates. *)
Theorem findall_pieces content :
  weave (gaps date_pattern content) (findall date_pattern content) = content
  /\ length (gaps date_pattern content)
     = S (length (findall date_pattern content))
  /\ (forall c, In c (findall date_pattern content) ->
        (length c = 8%nat \/ length c = 10%nat)
        /\ forallb date_char c = true)
  /\ (forall g, In g (gaps date_pattern content) ->
        findall date_pattern g = []).
Proof.
  split; [| split; [| split]].
  - apply (weave_gaps_findall date_pattern).
    intros a Ha. apply date_pattern_chars, Ha.
  - apply gaps_from_length.
  - intros c Hc. split.
    + exact (findall_from_lengths content 0 c Hc).
    + apply (findall_date_chars content c Hc).
  - intros g Hg. exact (gaps_findall_nil date_pattern content g Hg).
Qed.

(** ** Where the output goes *)

Lemma basename_fold_plain b :
  forallb (fun c => negb (Ascii.eqb c "/")) b = true ->
  forall acc,
    fold_left (fun acc c => if Ascii.eqb c "/" then [] else acc ++ [c]) b acc
    = acc ++ b.
Proof.
  induction b as [| c b IH]; intros H acc.
  - cbn. rewrite app_nil_r. reflexivity.
  - cbn [forallb] in H. apply andb_true_iff in H. destruct H as [Hc Hb].
    apply negb_true_iff in Hc. cbn [fold_left]. rewrite Hc.
    rewrite IH by exact Hb. rewrite <- app_assoc. reflexivity.
Qed.

Lemma basename_after_sep a b :
  forallb (fun c => negb (Ascii.eqb c "/")) b = true ->
  basename (a ++ "/"%char :: b) = b.
Proof.
  intros Hb. unfold basename. rewrite fold_left_app. cbn [fold_left].
  rewrite Ascii.eqb_refl. apply (basename_fold_plain b Hb []).
Qed.

Lemma basename_plain b :
  forallb (fun c => negb (Ascii.eqb c "/")) b = true -> basename b = b.
Proof. intros Hb. apply (basename_fold_plain b Hb []). Qed.

Lemma basename_join root file :
  forallb (fun c => negb (Ascii.eqb c "/")) file = true ->
  basename (path_join root file) = file.
Proof.
  intros Hf. unfold path_join.
  destruct (starts_with (lit "/") file) eqn:E.
  - apply basename_plain, Hf.
  - destruct root as [| r root]; [apply basename_plain, Hf |].
    destruct (Ascii.eqb (last (r :: root) " "%char) "/") eqn:El.
    + apply Ascii.eqb_eq in El.
      rewrite (app_removelast_last " "%char (l := r :: root))
        by discriminate.
      rewrite El, <- app_assoc. apply basename_after_sep, Hf.
    + apply basename_after_sep, Hf.
Qed.

(** X8.  With an output directory, a file [file] found in the directory
    [root] is written, when it is written, to the output directory under
    its own name: the directory it came from leaves no trace in the path,
    so two files of the same name in different directories are written to
    the same path.  Without an output directory ([None] or the empty
    string) the path written is that of the file itself.  Either nothing
    is written, or the write at that path has succeeded. *)
Theorem output_file_path_flat pad dir root root' file k f io :
  dir <> [] ->
  forallb (fun c => negb (Ascii.eqb c "/")) file = true ->
  output_file_path (Some dir) (path_join root file) = path_join dir file
  /\ output_file_path (Some dir) (path_join root' file)
     = output_file_path (Some dir) (path_join root file)
  /\ basename (path_join dir file) = file
  /\ output_file_path None (path_join root file) = path_join root file
  /\ output_file_path (Some []) (path_join root file) = path_join root file
  /\ (snd (process_file pad (path_join root file) k (Some dir) f io) = None
      \/ exists encoding out : text,
           snd (process_file pad (path_join root file) k (Some dir) f io)
           = Some (path_join dir file, out)
           /\ io_write io (path_join dir file) encoding out = Ok tt).
Proof.
  intros Hd Hf.
  assert (H : forall r, output_file_path (Some dir) (path_join r file)
                        = path_join dir file).
  { intros r. destruct dir as [| c dir]; [contradiction |].
    cbn [output_file_path]. rewrite basename_join by exact Hf.
    reflexivity. }
  repeat split; try reflexivity.
  - apply H.
  - rewrite !H. reflexivity.
  - apply basename_join, Hf.
  - destruct (snd (process_file pad (path_join root file) k (Some dir) f io))
      as [[p out] |] eqn:E; [right | left; reflexivity].
    destruct (process_file_written _ _ _ _ _ _ _ _ E)
      as (encoding & decoded & w & _ & _ & _ & -> & Hw & _).
    rewrite H in *. exists encoding, out. split; [reflexivity | exact Hw].
Qed.

Lemma output_file_path_flat_witness :
  output_file_path (Some (lit "out")) (path_join (lit "in/2023") (lit "a.txt"))
  = path_join (lit "out") (lit "a.txt")
  /\ output_file_path (Some (lit "out"))
       (path_join (lit "in/2024/") (lit "a.txt"))
     = output_file_path (Some (lit "out"))
         (path_join (lit "in/2023") (lit "a.txt"))
  /\ basename (path_join (lit "out") (lit "a.txt")) = lit "a.txt"
  /\ output_file_path None (path_join (lit "in/2023") (lit "a.txt"))
     = path_join (lit "in/2023") (lit "a.txt")
  /\ output_file_path (Some []) (path_join (lit "in/2023") (lit "a.txt"))
     = path_join (lit "in/2023") (lit "a.txt")
  /\ (snd (process_file false (path_join (lit "in/2023") (lit "a.txt")) 1
             (Some (lit "out")) default_format
             (mkio (fun _ => Ok (Some (lit "ascii")))
                   (fun _ _ => Ok (lit "on 2023-01-15"))
                   (fun _ _ _ => Ok tt)))
      = None
      \/ exists encoding out : text,
           snd (process_file false (path_join (lit "in/2023") (lit "a.txt"))
                  1 (Some (lit "out")) default_format
                  (mkio (fun _ => Ok (Some (lit "ascii")))
                        (fun _ _ => Ok (lit "on 2023-01-15"))
                        (fun _ _ _ => Ok tt)))
           = Some (path_join (lit "out") (lit "a.txt"), out)
           /\ Ok tt = Ok tt).
Proof.
  apply (output_file_path_flat false (lit "out") (lit "in/2023")
           (lit "in/2024/") (lit "a.txt") 1 default_format
           (mkio (fun _ => Ok (Some (lit "ascii")))
                 (fun _ _ => Ok (lit "on 2023-01-15"))
                 (fun _ _ _ => Ok tt))).
  - discriminate.
  - reflexivity.
Defined.

(** A single file with an output directory that does not exist: [open]
    raises ([FileNotFoundError], an [OSError]), the error is logged and
    nothing is written -- [main] creates no directory on this path. *)
Example process_file_missing_directory :
  process_file false (lit "a.txt") 1 (Some (lit "missing")) default_format
    (mkio (fun _ => Ok (Some (lit "ascii")))
          (fun _ _ => Ok (lit "on 2023-01-15"))
          (fun path _ _ =>
             if starts_with (lit "missing/") path then Raise OSError
             else Ok tt))
  = ([Error_processing OSError], None).
Proof. reflexivity. Qed.

(** ** The files of a run *)

Lemma text_eqb_refl a : text_eqb a a = true.
Proof.
  induction a as [| c a IH]; [reflexivity |].
  cbn [text_eqb]. rewrite Ascii.eqb_refl. exact IH.
Qed.

Lemma flat_map_singleton {A B : Type} (g : A -> B) l :
  flat_map (fun x => [g x]) l = map g l.
Proof.
  induction l as [| x l IH]; [reflexivity |].
  cbn [flat_map map app]. rewrite IH. reflexivity.
Qed.

(** X9.  Without [--recursive] the files processed are the files of the
    directory given, those of the first entry of the walk, and no other,
    whatever lies below; with [--recursive] they are the files of every
    directory walked, directory by directory in the order of the walk. *)
Theorem process_directory_files files walked input_path k out fmt :
  process_directory ((input_path, files) :: walked) input_path k out false
                    fmt
  = map (fun file => mkcall (path_join input_path file) k out fmt) files
  /\ process_directory ((input_path, files) :: walked) input_path k out
                       true fmt
     = flat_map
         (fun entry =>
            map (fun file => mkcall (path_join (fst entry) file) k out fmt)
                (snd entry))
         ((input_path, files) :: walked)
  /\ process_directory [] input_path k out false fmt = [].
Proof.
  split; [| split].
  - cbn [process_directory negb andb]. rewrite text_eqb_refl.
    cbn [negb]. rewrite app_nil_r. apply flat_map_singleton.
  - generalize ((input_path, files) :: walked). intros l.
    induction l as [| [root fs] l IH]; [reflexivity |].
    cbn [process_directory negb andb flat_map fst snd].
    rewrite IH, flat_map_singleton. reflexivity.
  - reflexivity.
Qed.

Lemma process_directory_offset walked input_path k out recursive fmt :
  Forall (fun c => call_shift c = k /\ call_output c = out
                   /\ call_format c = fmt)
         (process_directory walked input_path k out recursive fmt).
Proof.
  induction walked as [| [root files] walked IH]; [constructor |].
  cbn [process_directory]. apply Forall_app. split.
  - apply Forall_flat_map. apply Forall_forall. intros file _.
    destruct (negb recursive && negb (text_eqb root input_path));
      repeat constructor.
  - destruct (negb recursive); [constructor | exact IH].
Qed.

(** X10.  One offset for the whole run: every file processed in a run of
    [main] is processed with the same offset, the same output directory
    and the same format; the offset is the one given on the command line
    whenever one is given, zero included, and the number drawn otherwise.
    When the input path does not exist, no file is processed. *)
Theorem main_one_offset a exists_ isfile isdir drawn walked :
  Forall (fun c =>
            call_shift c
            = match arg_shift_days a with
              | Some n => n
              | None => drawn
              end
            /\ call_output c = arg_output_path a
            /\ call_format c = arg_date_format a)
         (main a exists_ isfile isdir drawn walked)
  /\ (exists_ = false -> main a exists_ isfile isdir drawn walked = []).
Proof.
  split.
  - unfold main. destruct exists_; [| constructor]. cbn [negb].
    destruct isfile.
    + destruct (arg_shift_days a); repeat constructor.
    + destruct isdir; [| constructor].
      destruct (arg_shift_days a); apply process_directory_offset.
  - intros ->. reflexivity.
Qed.

(** ** What [re_match] accepts *)

Lemma first_some_in {A B : Type} (F : A -> option B) l r :
  first_some F l = Some r -> exists a, In a l /\ F a = Some r.
Proof.
  induction l as [| a l IH]; [discriminate |].
  cbn [first_some]. destruct (F a) as [b |] eqn:E.
  - intros [= <-]. exists a. split; [left; reflexivity | exact E].
  - intros H. destruct (IH H) as (a' & Ha & Hr).
    exists a'. split; [right |]; assumption.
Qed.

Lemma in_down_from n m : In n (down_from m) -> (1 <= n <= m)%nat.
Proof.
  induction m as [| m IH]; [contradiction |].
  change (down_from (S m)) with (S m :: down_from m).
  intros [<- | H]; [lia | specialize (IH H); lia].
Qed.

Lemma firstn_spaces s :
  forall n, (n <= count_spaces s)%nat ->
            forallb is_space (firstn n s) = true
            /\ length (firstn n s) = n.
Proof.
  induction s as [| c s IH]; intros n Hn.
  - cbn in Hn. assert (n = 0%nat) as -> by lia. split; reflexivity.
  - destruct n as [| n]; [split; reflexivity |].
    cbn [count_spaces] in Hn. destruct (is_space c) eqn:E; [| lia].
    destruct (IH n ltac:(lia)) as [H1 H2].
    cbn [firstn forallb length]. rewrite E, H1, H2. split; reflexivity.
Qed.

Lemma choices_piece it s n :
  In n (choices it s) -> piece_ok it (firstn n s) /\ length (firstn n s) = n.
Proof.
  destruct it as [c | | d]; cbn [choices piece_ok].
  - destruct s as [| x s]; [contradiction |].
    destruct (ci_eqb c x) eqn:E; [| contradiction].
    intros [<- | []]. split; [| reflexivity]. exists x. split; [reflexivity | exact E].
  - intros H. apply in_down_from in H.
    destruct (firstn_spaces s n ltac:(lia)) as [H1 H2].
    repeat split; try assumption.
    intros E. rewrite E in H2. cbn in H2. lia.
  - intros H. apply in_map_iff in H. destruct H as (alt & <- & Ha).
    apply filter_In in Ha. destruct Ha as [Ha Hm].
    destruct (match_classes_firstn (fun _ => true) alt s) as [_ Hl];
      [reflexivity | exact Hm |].
    split; [| exact Hl]. exists alt.
    repeat split; [exact Ha | apply match_classes_prefix, Hm | exact Hl].
Qed.

(** A match cuts the text into one piece for each item, followed by what is
    left over. *)
Lemma re_match_pieces items :
  forall s groups rest,
    re_match items s = Some (groups, rest) ->
    exists pieces,
      s = concat pieces ++ rest
      /\ Forall2 piece_ok items pieces
      /\ groups = groups_of items pieces.
Proof.
  induction items as [| it items IH]; intros s groups rest H.
  - cbn in H. injection H as <- <-. exists []. repeat split. constructor.
  - cbn [re_match] in H. apply first_some_in in H.
    destruct H as (n & Hn & H).
    destruct (re_match items (skipn n s)) as [[g r] |] eqn:E; [| discriminate].
    injection H as <- <-.
    destruct (IH _ _ _ E) as (pieces & Hs & Hp & Hg).
    destruct (choices_piece it s n Hn) as [Hok _].
    exists (firstn n s :: pieces). repeat split.
    + cbn [concat]. rewrite <- app_assoc, <- Hs. symmetry. apply firstn_skipn.
    + constructor; assumption.
    + subst g. destruct it; reflexivity.
Qed.

(** ** Rendering what was parsed, in the default format *)

Lemma digit_char_val x :
  is_digit x = true ->
  digit_char (digit_val x) = x /\ 0 <= digit_val x <= 9.
Proof.
  destruct x as [[|] [|] [|] [|] [|] [|] [|] [|]];
    intros H; try discriminate H; split; try reflexivity;
    vm_compute; split; discriminate.
Qed.

Lemma pad2_int a b :
  is_digit a = true -> is_digit b = true -> pad2 (int_of_text [a; b]) = [a; b].
Proof.
  intros Ha Hb.
  destruct (digit_char_val a Ha) as [Ea Ra].
  destruct (digit_char_val b Hb) as [Eb Rb].
  unfold int_of_text, pad2. cbn [fold_left]. rewrite Ha, Hb.
  replace ((10 * (10 * 0 + digit_val a) + digit_val b) / 10 mod 10)
    with (digit_val a) by (Z.div_mod_to_equations; lia).
  replace ((10 * (10 * 0 + digit_val a) + digit_val b) mod 10)
    with (digit_val b) by (Z.div_mod_to_equations; lia).
  rewrite Ea, Eb. reflexivity.
Qed.

Lemma pad4_int a b c d :
  is_digit a = true -> is_digit b = true ->
  is_digit c = true -> is_digit d = true ->
  pad4 (int_of_text [a; b; c; d]) = [a; b; c; d].
Proof.
  intros Ha Hb Hc Hd.
  destruct (digit_char_val a Ha) as [Ea Ra].
  destruct (digit_char_val b Hb) as [Eb Rb].
  destruct (digit_char_val c Hc) as [Ec Rc].
  destruct (digit_char_val d Hd) as [Ed Rd].
  unfold int_of_text, pad4. cbn [fold_left]. rewrite Ha, Hb, Hc, Hd.
  set (n := 10 * (10 * (10 * (10 * 0 + digit_val a) + digit_val b)
                  + digit_val c) + digit_val d).
  replace (n / 1000 mod 10) with (digit_val a)
    by (subst n; Z.div_mod_to_equations; lia).
  replace (n / 100 mod 10) with (digit_val b)
    by (subst n; Z.div_mod_to_equations; lia).
  replace (n / 10 mod 10) with (digit_val c)
    by (subst n; Z.div_mod_to_equations; lia).
  replace (n mod 10) with (digit_val d)
    by (subst n; Z.div_mod_to_equations; lia).
  rewrite Ea, Eb, Ec, Ed. reflexivity.
Qed.

Lemma ci_eqb_dash x : ci_eqb "-" x = true -> x = "-"%char.
Proof.
  destruct x as [[|] [|] [|] [|] [|] [|] [|] [|]];
    intros H; try reflexivity; vm_compute in H; discriminate H.
Qed.

Lemma group_length d p :
  piece_ok (RGroup d) p ->
  match d with
  | DY => length p = 4%nat
  | Dy => length p = 2%nat
  | Dm | Dd => length p = 1%nat \/ length p = 2%nat
  end.
Proof.
  intros (alt & Ha & _ & Hl). rewrite Hl.
  destruct d; cbn [group_alternatives] in Ha;
    repeat (destruct Ha as [<- | Ha]; [cbn [length]; auto |]);
    contradiction.
Qed.

(** A text of the first shape that parses under the default format is cut
    at fixed places: four digits, a hyphen, two digits, a hyphen, two
    digits. *)
Lemma strptime_default_shape c dt :
  match_classes (nth 0 date_pattern []) c = true ->
  length c = 10%nat ->
  strptime c default_format = Ok dt ->
  exists y1 y2 y3 y4 m1 m2 d1 d2,
    c = [y1; y2; y3; y4; "-"%char; m1; m2; "-"%char; d1; d2]
    /\ forallb is_digit [y1; y2; y3; y4; m1; m2; d1; d2] = true
    /\ dt = mkdate (int_of_text [y1; y2; y3; y4]) (int_of_text [m1; m2])
                   (int_of_text [d1; d2]).
Proof.
  intros Hshape Hlen Hp.
  destruct c as [| y1 [| y2 [| y3 [| y4 [| s1 [| m1 [| m2 [| s2 [| d1
               [| d2 [| x c]]]]]]]]]]]; try discriminate Hlen.
  clear Hlen. cbn [nth date_pattern match_classes] in Hshape.
  rewrite !andb_true_iff in Hshape.
  destruct Hshape as (Hy1 & Hy2 & Hy3 & Hy4 & Hs1 & Hm1 & Hm2 & Hs2 & Hd1
                      & Hd2 & _).
  apply Ascii.eqb_eq in Hs1, Hs2. subst s1 s2.
  exists y1, y2, y3, y4, m1, m2, d1, d2.
  split; [reflexivity |].
  split; [cbn [forallb]; rewrite Hy1, Hy2, Hy3, Hy4, Hm1, Hm2, Hd1, Hd2;
          reflexivity |].
  unfold strptime in Hp.
  change (compile default_format)
    with (Ok [RGroup DY; RChar "-"; RGroup Dm; RChar "-"; RGroup Dd]) in Hp.
  cbn [bind] in Hp.
  match type of Hp with
  | context [re_match ?items ?s] =>
      destruct (re_match items s) as [[groups [| r rest]] |] eqn:E;
      try discriminate Hp
  end.
  apply re_match_pieces in E. destruct E as (pieces & Hs & Hok & Hg).
  inversion Hok as [| i1 p1 l1 q1 Ho1 Hok1]; subst.
  inversion Hok1 as [| i2 p2 l2 q2 Ho2 Hok2]; subst.
  inversion Hok2 as [| i3 p3 l3 q3 Ho3 Hok3]; subst.
  inversion Hok3 as [| i4 p4 l4 q4 Ho4 Hok4]; subst.
  inversion Hok4 as [| i5 p5 l5 q5 Ho5 Hok5]; subst.
  inversion Hok5; subst. clear Hok Hok1 Hok2 Hok3 Hok4 Hok5.
  pose proof (group_length _ _ Ho1) as L1.
  pose proof (group_length _ _ Ho3) as L3.
  pose proof (group_length _ _ Ho5) as L5.
  destruct Ho2 as (x2 & -> & _). destruct Ho4 as (x4 & -> & _).
  cbn [concat app groups_of] in *. rewrite !app_nil_r in Hs.
  assert (length p3 = 2%nat /\ length p5 = 2%nat) as [L3' L5'].
  { apply (f_equal (@length ascii)) in Hs.
    cbn [length] in Hs. rewrite !length_app in Hs. cbn [length] in Hs.
    rewrite !length_app in Hs. cbn [length] in Hs. lia. }
  clear L3 L5.
  destruct p1 as [| a1 [| a2 [| a3 [| a4 [| ? ?]]]]]; try discriminate L1.
  destruct p3 as [| b1 [| b2 [| ? ?]]]; try discriminate L3'.
  destruct p5 as [| c1 [| c2 [| ? ?]]]; try discriminate L5'.
  cbn [app] in Hs. injection Hs as -> -> -> -> _ -> -> _ -> ->.
  cbn [fold_left set_field fst snd] in Hp.
  unfold make_date in Hp.
  destruct (check_date_fields _ _ _); [| discriminate Hp].
  injection Hp as <-. reflexivity.
Qed.

Lemma strftime_default_parsed pad c dt :
  match_classes (nth 0 date_pattern []) c = true ->
  length c = 10%nat ->
  strptime c default_format = Ok dt ->
  pad = true \/ 1000 <= year dt ->
  strftime pad dt default_format = c.
Proof.
  intros Hshape Hlen Hp Hpad.
  destruct (strptime_ok _ _ _ Hp) as [_ Hr].
  cbn [strftime default_format].
  rewrite (render_year pad dt Hr Hpad). clear Hpad Hr.
  destruct (strptime_default_shape c dt Hshape Hlen Hp)
    as (y1 & y2 & y3 & y4 & m1 & m2 & d1 & d2 & -> & Hd & ->).
  cbn [forallb] in Hd. rewrite !andb_true_iff in Hd.
  destruct Hd as (Hy1 & Hy2 & Hy3 & Hy4 & Hm1 & Hm2 & Hd1 & Hd2 & _).
  cbn [render_directive year month day].
  rewrite pad4_int, !pad2_int by assumption. reflexivity.
Qed.

Lemma candidate_default_cases content c :
  In c (findall date_pattern content) ->
  (match_classes (nth 0 date_pattern []) c = true /\ length c = 10%nat)
  \/ strptime c default_format = Raise ValueError.
Proof.
  intros Hc.
  destruct (findall_from_shape _ _ _ _ Hc) as (a & Ha & Hm).
  unfold date_pattern in Ha. destruct Ha as [<- | [<- | [<- | []]]].
  - left. split; [exact Hm |].
    destruct (findall_from_lengths _ _ _ Hc) as [Hl | Hl]; [| exact Hl].
    exfalso.
    destruct c as [| ? [| ? [| ? [| ? [| ? [| ? [| ? [| ? [| ? ?]]]]]]]]];
      try discriminate Hl.
    cbn [match_classes] in Hm. rewrite ?andb_false_r in Hm. discriminate Hm.
  - right.
    destruct c as [| x [| y [| z s]]];
      cbn [match_classes] in Hm; rewrite ?andb_false_r in Hm;
      try discriminate.
    apply strptime_default_third_sep.
    rewrite !andb_true_iff in Hm. tauto.
  - right.
    destruct c as [| x [| y [| z s]]];
      cbn [match_classes] in Hm; rewrite ?andb_false_r in Hm;
      try discriminate.
    apply strptime_default_third_sep.
    rewrite !andb_true_iff in Hm. tauto.
Qed.

Lemma shift_loop_fixed pad k f :
  forall dates,
    (forall c, In c dates -> c <> [] /\ snd (shift_date pad c k f) = Ok c) ->
    forall content, snd (shift_loop pad dates k f content) = Ok content.
Proof.
  induction dates as [| c dates IH]; intros H content; [reflexivity |].
  destruct (H c (or_introl eq_refl)) as [Hn Hs].
  cbn [shift_loop].
  destruct (shift_date pad c k f) as [w [x | e]]; cbn [snd] in Hs;
    [| discriminate Hs].
  injection Hs as ->. rewrite replace_same by exact Hn.
  specialize (IH (fun c' Hc' => H c' (or_intror Hc')) content).
  destruct (shift_loop pad dates k f content) as [w' r].
  exact IH.
Qed.

(** X11.  On Latin-1 content, where the digits are [0-9] only: with offset
    0 and the default format the transformer gives the content back, where
    [%Y] is rendered with four digits; where it is not (glibc), as long as
    the candidates that parse have a year of four digits.  Candidates that
    do not parse are left alone. *)
Theorem transform_zero_default pad content :
  pad = true
  \/ (forall c dt, In c (findall date_pattern content) ->
                   strptime c default_format = Ok dt -> 1000 <= year dt) ->
  snd (transform pad content 0 default_format) = Ok content.
Proof.
  intros Hpad. unfold transform. apply shift_loop_fixed. intros c Hc.
  split; [apply (findall_date_chars content c Hc) |].
  assert (strptime c default_format = Raise ValueError ->
          snd (shift_date pad c 0 default_format) = Ok c) as Hv.
  { intros Hv. unfold shift_date, shift_date_try. rewrite Hv. reflexivity. }
  destruct (candidate_default_cases _ _ Hc) as [[Hs Hl] | Hu];
    [| exact (Hv Hu)].
  destruct (strptime_cases c default_format) as [[dt Hp] | [Hu | [_ Hr]]];
    [| exact (Hv Hu) | discriminate Hr].
  destruct (strptime_ok _ _ _ Hp) as [_ Hr].
  destruct (shift_date_parsed pad c 0 default_format dt Hp) as [Hin _].
  rewrite (Hin Hr). cbn [snd]. f_equal. rewrite days_from_zero.
  apply strftime_default_parsed; try assumption.
  destruct Hpad as [Hpad | Hpad]; [left; exact Hpad | right; exact (Hpad c dt Hc Hp)].
Qed.

Lemma transform_zero_default_witness :
  snd (transform false (lit "From 2023-12-31 to 01/02/2024, not 2023-02-30.")
                 0 default_format)
  = Ok (lit "From 2023-12-31 to 01/02/2024, not 2023-02-30.").
Proof.
  apply (transform_zero_default false).
  right. intros c dt Hc Hp. vm_compute in Hc.
  destruct Hc as [<- | [<- | [<- | []]]]; vm_compute in Hp;
    try discriminate Hp.
  injection Hp as <-. vm_compute. discriminate.
Defined.

(** Where [%Y] is not zero-filled, a year below 1000 loses its zeros even
    with offset 0. *)
Example transform_zero_short_year :
  snd (transform false (lit "0999-01-01") 0 default_format)
  = Ok (lit "999-01-01").
Proof. reflexivity. Qed.

(** ** Lengths *)

Lemma replace_from_length old new :
  old <> [] -> length old = length new ->
  forall s skip,
    (skip <= length s)%nat ->
    (length (replace_from old new skip s) + skip)%nat = length s.
Proof.
  intros Ho Hl. induction s as [| c s IH]; intros skip Hs.
  - cbn [length] in Hs. assert (skip = 0%nat) as -> by lia. reflexivity.
  - cbn [replace_from]. destruct skip as [| k].
    + destruct (starts_with old (c :: s)) eqn:E.
      * apply starts_with_length in E. cbn [length] in E.
        assert (length old <> 0%nat) as Hn
          by (destruct old; [contradiction | discriminate]).
        rewrite length_app.
        specialize (IH (length old - 1)%nat ltac:(lia)).
        cbn [length]. lia.
      * cbn [length]. specialize (IH 0%nat ltac:(lia)). lia.
    + cbn [length] in *. specialize (IH k ltac:(lia)). lia.
Qed.

Lemma replace_length s old new :
  old <> [] -> length old = length new ->
  length (replace s old new) = length s.
Proof.
  intros Ho Hl. destruct old as [| o old]; [contradiction |].
  cbn [replace].
  pose proof (replace_from_length (o :: old) new Ho Hl s 0%nat ltac:(lia)).
  lia.
Qed.

Lemma shift_loop_length pad k f :
  forall dates,
    (forall c c', In c dates -> snd (shift_date pad c k f) = Ok c' ->
                  c <> [] /\ length c = length c') ->
    forall content out,
      snd (shift_loop pad dates k f content) = Ok out ->
      length out = length content.
Proof.
  induction dates as [| c dates IH]; intros H content out Ho.
  - injection Ho as <-. reflexivity.
  - cbn [shift_loop] in Ho.
    pose proof (H c) as Hc.
    destruct (shift_date pad c k f) as [w [x | e]]; [| discriminate Ho].
    destruct (Hc x (or_introl eq_refl) eq_refl) as [Hn Hl].
    specialize (IH (fun c' x' Hc' => H c' x' (or_intror Hc'))
                   (replace content c x) out).
    destruct (shift_loop pad dates k f (replace content c x)) as [w' r].
    cbn [snd] in *. rewrite (IH Ho). apply replace_length; assumption.
Qed.

Lemma strftime_default_length pad dt :
  representable dt -> pad = true \/ 1000 <= year dt ->
  length (strftime pad dt default_format) = 10%nat.
Proof.
  intros Hr Hp. cbn [strftime default_format].
  rewrite (render_year pad dt Hr Hp). reflexivity.
Qed.

(** X12.  With the default format the transformer keeps the length of the
    content, whatever the offset, whenever it returns: every candidate is
    replaced by a text of its own length.  Where [%Y] is not zero-filled
    this needs the shifted years to have four digits. *)
Theorem transform_default_length pad content k out :
  pad = true
  \/ (forall c dt, In c (findall date_pattern content) ->
                   strptime c default_format = Ok dt ->
                   1000 <= year (days_from dt k)) ->
  snd (transform pad content k default_format) = Ok out ->
  length out = length content.
Proof.
  intros Hpad. unfold transform. apply shift_loop_length. intros c c' Hc Hs.
  split; [apply (findall_date_chars content c Hc) |].
  assert (strptime c default_format = Raise ValueError ->
          length c = length c') as Hv.
  { intros Hv. unfold shift_date, shift_date_try in Hs. rewrite Hv in Hs.
    injection Hs as <-. reflexivity. }
  destruct (candidate_default_cases _ _ Hc) as [[_ Hl] | Hu];
    [| exact (Hv Hu)].
  destruct (strptime_cases c default_format) as [[dt Hp] | [Hu | [_ Hr]]];
    [| exact (Hv Hu) | discriminate Hr].
  destruct (shift_date_parsed pad c k default_format dt Hp) as [Hin Hout].
  destruct (representable_dec (days_from dt k)) as [Hr | Hr].
  - rewrite (Hin Hr) in Hs. cbn [snd] in Hs.
    assert (c' = strftime pad (days_from dt k) default_format) as ->
      by congruence.
    rewrite strftime_default_length; [exact Hl | exact Hr |].
    destruct Hpad as [Hpad | Hpad]; [left; exact Hpad |].
    right. exact (Hpad c dt Hc Hp).
  - rewrite (Hout Hr) in Hs. discriminate Hs.
Qed.

Lemma transform_default_length_witness :
  snd (transform false (lit "due 2023-12-31, paid 01/02/2024") 1
                 default_format)
  = Ok (lit "due 2024-01-01, paid 01/02/2024")
  /\ length (lit "due 2024-01-01, paid 01/02/2024")
     = length (lit "due 2023-12-31, paid 01/02/2024").
Proof.
  split; [reflexivity |].
  apply (transform_default_length false _ 1).
  - right. intros c dt Hc Hp. vm_compute in Hc.
    destruct Hc as [<- | [<- | []]]; vm_compute in Hp;
      [injection Hp as <-; vm_compute; discriminate | discriminate Hp].
  - reflexivity.
Defined.
